(** * KingDB: byte arrays and snapshots

    A shallow embedding of [byte_array.h] (the [ByteArray] family and
    [Mmap]) and of [interface/snapshot.h] (the [Snapshot] interface), with
    the properties of the specification stated over it.

    Raw pointers are modelled over a block store: a [char*] is either
    [nullptr] or a block identifier with an offset.  Behaviour that C++ leaves
    undefined (reading outside a block, using a deleted object) is the
    result [None]. *)

From Stdlib Require Import ZArith.
From stdpp Require Import gmap strings list.

Local Open Scope Z_scope.

(** ** Status *)

Module Status.

(** Modelled from the spec: [util/status.h] is not among the sources.  The
    kinds are the taxonomy of the specification's error-handling section; the
    constructors and the predicates are the ones the sources call
    ([Status::OK()], [Status::Done()], [Status::IOError(msg)], [IsOK()],
    [IsDone()], [IsNotFound()]). *)
Inductive Code : Set :=
  | kOK
  | kDone
  | kContinue
  | kNotFound
  | kIOError
  | kChecksumError
  | kUnsupportedOperation.

#[global] Instance Code_eq_dec : EqDecision Code.
Proof. solve_decision. Defined.

Record t : Set := mk { code : Code; message1 : string; message2 : string }.

#[global] Instance t_eq_dec : EqDecision t.
Proof. solve_decision. Defined.

Definition OK : t := mk kOK "" "".
Definition Done : t := mk kDone "" "".
Definition NotFound (msg : string) : t := mk kNotFound msg "".
Definition IOError (msg : string) : t := mk kIOError msg "".

Definition IsOK (s : t) : bool := bool_decide (code s = kOK).
Definition IsDone (s : t) : bool := bool_decide (code s = kDone).
Definition IsNotFound (s : t) : bool := bool_decide (code s = kNotFound).
Definition IsIOError (s : t) : bool := bool_decide (code s = kIOError).

End Status.

(** ** Memory *)

Definition byte : Set := Byte.byte.

#[global] Instance byte_eq_dec : EqDecision byte := Byte.byte_eq_dec.

Definition NUL : byte := Byte.x00.

(** A [char*]. *)
Inductive ptr : Set :=
  | nullptr
  | Ptr (blk : nat) (off : Z).

#[global] Instance ptr_eq_dec : EqDecision ptr.
Proof. solve_decision. Defined.

(** [p + k] on a [char*]. *)
Definition ptr_add (p : ptr) (k : Z) : ptr :=
  match p with
  | nullptr => nullptr
  | Ptr b o => Ptr b (o + k)
  end.

(** The store of byte blocks: file mappings and [new char[n]] arrays. *)
Abbreviation mem := (gmap nat (list byte)).

(** The [n] bytes at [p]; [None] when they are not all inside one live
    block.  Reading no byte through [nullptr] reads nothing. *)
Definition load (m : mem) (p : ptr) (n : Z) : option (list byte) :=
  match p with
  | nullptr => if bool_decide (n = 0) then Some [] else None
  | Ptr b o =>
      match m !! b with
      | Some bs =>
          if bool_decide (0 <= o /\ 0 <= n /\ o + n <= Z.of_nat (length bs))
          then Some (take (Z.to_nat n) (drop (Z.to_nat o) bs))
          else None
      | None => None
      end
  end.

(** [new char[n]]: a block that no live block uses, with the given contents
    (what the array holds once the caller has filled it). *)
Definition alloc (m : mem) (bs : list byte) : nat * mem :=
  let b := fresh (dom m) in (b, <[b := bs]> m).

Definition u64 (x : Z) : Z := x mod 2 ^ 64.
Definition u32 (x : Z) : Z := x mod 2 ^ 32.

(** ** libc *)

(** [memcmp] over two spans of one length: the difference of the first pair
    of bytes that differ, as [unsigned char], and 0 when there is none. *)
Fixpoint memcmp (xs ys : list byte) : Z :=
  match xs, ys with
  | x :: xs', y :: ys' =>
      if bool_decide (x = y) then memcmp xs' ys'
      else Z.of_N (Byte.to_N x) - Z.of_N (Byte.to_N y)
  | _, _ => 0
  end.

(** [strncpy(dest, src, n)]: the [n] bytes written to [dest].  Bytes of
    [src] are copied up to and including the first NUL, and the rest of
    [dest] is filled with NUL.  [src] is what can be read from the source
    pointer on; running off it before [n] bytes or a NUL is [None]. *)
Fixpoint strncpy (src : list byte) (n : nat) : option (list byte) :=
  match n with
  | O => Some []
  | S n' =>
      match src with
      | [] => None
      | c :: src' =>
          if bool_decide (c = NUL) then Some (replicate (S n') NUL)
          else cons c <$> strncpy src' n'
      end
  end.

(** ** ByteArray *)

Record ByteArray : Set := mkByteArray {
  data_ : ptr;
  size_ : Z;
  size_compressed_ : Z;
  crc32_value_ : Z;
  is_compressed_ : bool
}.

#[global] Instance ByteArray_eq_dec : EqDecision ByteArray.
Proof. solve_decision. Defined.

(** [ByteArray()].  The constructor leaves [size_compressed_] and
    [crc32_value_] unset: they hold whatever [sc0] and [crc0] the object's
    storage held. *)
Definition ByteArray_ctor (sc0 crc0 : Z) : ByteArray :=
  {| data_ := nullptr; size_ := 0; size_compressed_ := u64 sc0;
     crc32_value_ := u32 crc0; is_compressed_ := false |}.

Definition data (a : ByteArray) : ptr := data_ a.
Definition data_const (a : ByteArray) : ptr := data_ a.
Definition size (a : ByteArray) : Z := size_ a.
Definition size_const (a : ByteArray) : Z := size_ a.
Definition is_compressed (a : ByteArray) : bool := is_compressed_ a.

Definition set_data (p : ptr) (a : ByteArray) : ByteArray :=
  mkByteArray p (size_ a) (size_compressed_ a) (crc32_value_ a)
    (is_compressed_ a).
Definition set_size (n : Z) (a : ByteArray) : ByteArray :=
  mkByteArray (data_ a) n (size_compressed_ a) (crc32_value_ a)
    (is_compressed_ a).

Definition SetCompression (c : bool) (a : ByteArray) : ByteArray :=
  mkByteArray (data_ a) (size_ a) (size_compressed_ a) (crc32_value_ a) c.
Definition SetSizeCompressed (s : Z) (a : ByteArray) : ByteArray :=
  mkByteArray (data_ a) (size_ a) (u64 s) (crc32_value_ a) (is_compressed_ a).
Definition SetCRC32 (c : Z) (a : ByteArray) : ByteArray :=
  mkByteArray (data_ a) (size_ a) (size_compressed_ a) (u32 c)
    (is_compressed_ a).

(** The bytes a view denotes: [size_] bytes at [data_]. *)
Definition bytes (m : mem) (a : ByteArray) : option (list byte) :=
  load m (data_ a) (size_ a).

(** [operator==].  [&&] evaluates [memcmp] only when the sizes agree. *)
Definition eq_op (m : mem) (a right : ByteArray) : option bool :=
  if bool_decide (size_ a = size_const right) then
    xs ← load m (data_ a) (size_ a);
    ys ← load m (data_const right) (size_ a);
    Some (bool_decide (memcmp xs ys = 0))
  else Some false.

(** [ByteArray::data_chunk], the base implementation. *)
Definition ByteArray_data_chunk (a : ByteArray) : Status.t * ptr * Z :=
  (Status.Done, data_ a, size_ a).

(** [SimpleByteArray(data_in, size_in)] *)
Definition SimpleByteArray_ctor (sc0 crc0 : Z) (data_in : ptr) (size_in : Z)
  : ByteArray :=
  set_size (u64 size_in) (set_data data_in (ByteArray_ctor sc0 crc0)).

(** ** AllocatedByteArray *)

(** [AllocatedByteArray(data_in, size_in)]: [new char[size_]] filled by
    [strncpy(data_, data_in, size_)]. *)
Definition AllocatedByteArray_ctor (sc0 crc0 : Z) (data_in : ptr) (size_in : Z)
    (m : mem) : option (ByteArray * mem) :=
  let n := u64 size_in in
  src ← match data_in with
        | nullptr => if bool_decide (n = 0) then Some [] else None
        | Ptr b o =>
            bs ← m !! b;
            if bool_decide (0 <= o <= Z.of_nat (length bs))
            then Some (drop (Z.to_nat o) bs) else None
        end;
  out ← strncpy src (Z.to_nat n);
  let '(b, m') := alloc m out in
  Some (set_data (Ptr b 0) (set_size n (ByteArray_ctor sc0 crc0)), m').



(** ** Mmap *)

(** What a constructor that may call [exit] does: it returns the object, or
    the process ends with an exit code. *)
Inductive outcome (A : Type) : Type :=
  | Returned (a : A)
  | Exited (exit_code : Z).
Arguments Returned {A} a.
Arguments Exited {A} exit_code.

(** The result of [mmap(2)]. *)
Inductive mmap_result : Set :=
  | MAP_FAILED
  | Mapped (p : ptr).

(** The two system calls of [Mmap::Mmap]: [open(path, O_RDONLY)], which
    gives a descriptor or a negative number, and
    [mmap(0, length, PROT_READ, MAP_SHARED, fd, 0)]. *)
Record OS : Type := mkOS {
  os_open : string -> Z;
  os_mmap : Z -> Z -> mmap_result
}.

(** POSIX: [mmap] of a file through an invalid descriptor fails ([EBADF]). *)
Definition posix_mmap (os : OS) : Prop :=
  forall len fd, fd < 0 -> os_mmap os len fd = MAP_FAILED.

Record Mmap : Set := mkMmap {
  fd_ : Z;
  filesize_ : Z;
  datafile_ : ptr;
  filepath_ : string
}.

(** What [LOG_EMERG] is called with in the constructor. *)
Inductive log_line : Set :=
  | LogCouldNotOpen (msg : string)
  | LogCouldNotMmap.

(** [Mmap::Mmap(filepath, filesize)]: the lines logged and how the
    constructor ends.  When [open] fails the constructor logs and goes on
    to [mmap] with the negative [fd_]; when [mmap] fails it logs and calls
    [exit(-1)]. *)
Definition Mmap_ctor (os : OS) (filepath : string) (filesize : Z)
  : list log_line * outcome Mmap :=
  let fd := os_open os filepath in
  let log1 :=
    if bool_decide (fd < 0)
    then [LogCouldNotOpen ("Count not open file [" +:+ filepath +:+ "]")]
    else [] in
  match os_mmap os filesize fd with
  | MAP_FAILED => (log1 ++ [LogCouldNotMmap], Exited (-1))
  | Mapped p => (log1, Returned (mkMmap fd filesize p filepath))
  end.

(** ** The collaborators of SharedMmappedByteArray *)

(** What one call of [CompressorLZ4::Uncompress(source, size_source_total,
    dest, size_dest, frame_out, size_frame_out)] leaves behind: its status,
    the four out-parameters, the compressor and the store (the decoded
    bytes are written to a buffer the codec allocates). *)
Record uncompressed (C : Type) : Type := mkUncompressed {
  ur_status : Status.t;
  ur_dest : ptr;
  ur_size_dest : Z;
  ur_frame : ptr;
  ur_size_frame : Z;
  ur_state : C;
  ur_mem : mem
}.
Arguments mkUncompressed {C}.
Arguments ur_status {C}.
Arguments ur_dest {C}.
Arguments ur_size_dest {C}.
Arguments ur_frame {C}.
Arguments ur_size_frame {C}.
Arguments ur_state {C}.
Arguments ur_mem {C}.

(** [compressor.h] is not among the sources: the codec is an interface.
    [Uncompress] is given the current values of [*dest] and [*size_dest]
    (an out-parameter the codec does not write keeps its value). *)
Class Compressor (C : Type) : Type := {
  compressor_Reset : C -> C;
  Uncompress : C -> mem -> ptr -> Z -> ptr -> Z -> uncompressed C
}.

(** [crc32c.h] is not among the sources: the hasher is an interface. *)
Class CRC32 (H : Type) : Type := {
  crc_reset : H -> H;
  crc_stream : H -> list byte -> H;
  crc_get : H -> Z
}.

(** ** SharedMmappedByteArray *)

Record SharedMmappedByteArray (C H : Type) : Type := mkSharedMmapped {
  sm_base : ByteArray;
  compressor_ : C;
  crc32_ : H;
  mmap_ : option Mmap;
  sm_offset_ : Z
}.
Arguments mkSharedMmapped {C H}.
Arguments sm_base {C H}.
Arguments compressor_ {C H}.
Arguments crc32_ {C H}.
Arguments mmap_ {C H}.
Arguments sm_offset_ {C H}.

Section SharedMmapped.
Context {C H : Type} `{!Compressor C} `{!CRC32 H}.

Definition sm_with_base (f : ByteArray -> ByteArray)
    (v : SharedMmappedByteArray C H) : SharedMmappedByteArray C H :=
  mkSharedMmapped (f (sm_base v)) (compressor_ v) (crc32_ v) (mmap_ v)
    (sm_offset_ v).

(** [SharedMmappedByteArray()]: no member is set beyond [ByteArray()];
    [c0], [h0] and [off0] are what the members happen to hold. *)
Definition SharedMmappedByteArray_ctor0 (sc0 crc0 : Z) (c0 : C) (h0 : H)
    (off0 : Z) : SharedMmappedByteArray C H :=
  mkSharedMmapped (ByteArray_ctor sc0 crc0) c0 h0 None (u64 off0).

(** [SharedMmappedByteArray(filepath, filesize)] *)
Definition SharedMmappedByteArray_ctor (os : OS) (sc0 crc0 : Z) (c0 : C)
    (h0 : H) (off0 : Z) (filepath : string) (filesize : Z)
  : outcome (SharedMmappedByteArray C H) :=
  match snd (Mmap_ctor os filepath filesize) with
  | Exited c => Exited c
  | Returned mm =>
      Returned
        (mkSharedMmapped
           (set_size 0 (set_data (datafile_ mm) (ByteArray_ctor sc0 crc0)))
           (compressor_Reset c0) (crc_reset h0) (Some mm) (u64 off0))
  end.

(** [SharedMmappedByteArray::SetOffset(offset, size)]; [mmap_->] on an
    empty [shared_ptr] is undefined. *)
Definition SharedMmapped_SetOffset (offset size : Z)
    (v : SharedMmappedByteArray C H) : option (SharedMmappedByteArray C H) :=
  mm ← mmap_ v;
  Some (mkSharedMmapped
          (set_size (u64 size)
             (set_data (ptr_add (datafile_ mm) (u64 offset)) (sm_base v)))
          (compressor_ v) (crc32_ v) (mmap_ v) (u64 offset)).

(** [SharedMmappedByteArray::AddSize(add)]; [add] is an [int]. *)
Definition SharedMmapped_AddSize (add : Z)
    (v : SharedMmappedByteArray C H) : SharedMmappedByteArray C H :=
  sm_with_base (fun a => set_size (u64 (size_ a + add)) a) v.

(** The result of [data_chunk]: the status, [*data_out], [*size_out], the
    object and the store after the call. *)
Record chunk_result : Type := mkChunk {
  cr_status : Status.t;
  cr_data : ptr;
  cr_size : Z;
  cr_this : SharedMmappedByteArray C H;
  cr_mem : mem
}.

(** [SharedMmappedByteArray::data_chunk(data_out, size_out)].  The
    diagnostic printed to [stderr] on a bad checksum is not modelled. *)
Definition data_chunk (v : SharedMmappedByteArray C H) (m : mem)
  : option chunk_result :=
  let a := sm_base v in
  if bool_decide (size_compressed_ a = 0) then
    Some (mkChunk Status.Done (data_ a) (size_ a) v m)
  else
    let r := Uncompress (compressor_ v) m (data_ a) (size_compressed_ a)
               nullptr 0 in
    let s := ur_status r in
    let v1 := mkSharedMmapped a (ur_state r) (crc32_ v) (mmap_ v)
                (sm_offset_ v) in
    if Status.IsDone s
       && negb (bool_decide (crc_get (crc32_ v) = crc32_value_ a))
    then Some (mkChunk (Status.IOError "Bad CRC32") (ur_dest r)
                 (ur_size_dest r) v1 (ur_mem r))
    else if negb (Status.IsOK s)
    then Some (mkChunk s (ur_dest r) (ur_size_dest r) v1 (ur_mem r))
    else
      frame ← load (ur_mem r) (ur_frame r) (ur_size_frame r);
      Some (mkChunk Status.OK (ur_dest r) (ur_size_dest r)
              (mkSharedMmapped a (ur_state r) (crc_stream (crc32_ v) frame)
                 (mmap_ v) (sm_offset_ v))
              (ur_mem r)).

(** Calling [data_chunk] again and again while it answers [OK]: the chunks
    handed out, in order, and the result of the first call that does not
    answer [OK]. *)
Fixpoint read_chunks (fuel : nat) (v : SharedMmappedByteArray C H) (m : mem)
  : option (list (ptr * Z) * chunk_result) :=
  match fuel with
  | O => None
  | S fuel' =>
      r ← data_chunk v m;
      if Status.IsOK (cr_status r) then
        '(chunks, last) ← read_chunks fuel' (cr_this r) (cr_mem r);
        Some ((cr_data r, cr_size r) :: chunks, last)
      else Some ([], r)
  end.

(** What the codec does with the stored value from a given state on: it
    answers [OK] once per frame, leaving [frames] (the bytes it reports
    through [frame_out] and [size_frame_out]) and [chunks] (the buffers it
    reports through [dest] and [size_dest]), and then answers [Done] with
    [last]. *)
Inductive codec_run (source : ptr) (total : Z)
  : C -> mem -> list (list byte) -> list (ptr * Z) -> uncompressed C -> Prop :=
  | codec_run_done c m r :
      r = Uncompress c m source total nullptr 0 ->
      Status.IsDone (ur_status r) = true ->
      codec_run source total c m [] [] r
  | codec_run_frame c m r frame frames chunks last :
      r = Uncompress c m source total nullptr 0 ->
      Status.IsOK (ur_status r) = true ->
      load (ur_mem r) (ur_frame r) (ur_size_frame r) = Some frame ->
      codec_run source total (ur_state r) (ur_mem r) frames chunks last ->
      codec_run source total c m (frame :: frames)
        ((ur_dest r, ur_size_dest r) :: chunks) last.

End SharedMmapped.

(** The decoded stream: the bytes of the chunks handed out, in order. *)
Fixpoint decoded_stream (m : mem) (chunks : list (ptr * Z))
  : option (list byte) :=
  match chunks with
  | [] => Some []
  | (p, n) :: chunks' =>
      xs ← load m p n;
      ys ← decoded_stream m chunks';
      Some (xs ++ ys)
  end.

(** ** SharedAllocatedByteArray *)

Record SharedAllocatedByteArray : Set := mkSharedAllocated {
  sa_base : ByteArray;
  data_allocated_ : ptr;
  sa_offset_ : Z
}.

(** [SharedAllocatedByteArray()] *)
Definition SharedAllocatedByteArray_ctor0 (sc0 crc0 off0 : Z)
  : SharedAllocatedByteArray :=
  mkSharedAllocated (ByteArray_ctor sc0 crc0) nullptr (u64 off0).

(** [SharedAllocatedByteArray(data, size_in)] *)
Definition SharedAllocatedByteArray_ctor (sc0 crc0 off0 : Z) (data : ptr)
    (size_in : Z) : SharedAllocatedByteArray :=
  mkSharedAllocated
    (set_size (u64 size_in) (set_data data (ByteArray_ctor sc0 crc0)))
    data (u64 off0).

(** [SharedAllocatedByteArray(size_in)]: [new char[size_in]], holding some
    [junk]. *)
Definition SharedAllocatedByteArray_ctor_size (sc0 crc0 off0 : Z)
    (size_in : Z) (junk : list byte) (m : mem)
  : option (SharedAllocatedByteArray * mem) :=
  if bool_decide (Z.of_nat (length junk) = u64 size_in) then
    let '(b, m') := alloc m junk in
    Some (SharedAllocatedByteArray_ctor sc0 crc0 off0 (Ptr b 0) size_in, m')
  else None.

(** [SharedAllocatedByteArray::SetOffset(offset, size)] *)
Definition SharedAllocated_SetOffset (offset size : Z)
    (v : SharedAllocatedByteArray) : SharedAllocatedByteArray :=
  mkSharedAllocated
    (set_size (u64 size)
       (set_data (ptr_add (data_allocated_ v) (u64 offset)) (sa_base v)))
    (data_allocated_ v) (u64 offset).

(** [SharedAllocatedByteArray::AddSize(add)] *)
Definition SharedAllocated_AddSize (add : Z)
    (v : SharedAllocatedByteArray) : SharedAllocatedByteArray :=
  mkSharedAllocated (set_size (u64 (size_ (sa_base v) + add)) (sa_base v))
    (data_allocated_ v) (sa_offset_ v).

(** ** Snapshot *)

(** What the snapshot does to the objects it points to, in order. *)
Inductive Event : Set :=
  | EvGet (se : nat) (key : ByteArray)
  | EvReleaseSnapshot (se : nat) (snapshot_id : Z)
  | EvDeleteEngine (se : nat)
  | EvDeleteFileIds (fileids : nat).

(** The [StorageEngine] class is not among the sources: the engine is an
    interface, with the two methods [Snapshot] calls.  [se_Get e key] gives
    the status, what [*value_out] holds after the call, and the engine. *)
Class StorageEngine (E : Type) : Type := {
  se_Get : E -> ByteArray -> Status.t * option ByteArray * E;
  se_ReleaseSnapshot : E -> Z -> E
}.

(** The objects behind the raw pointers of a [Snapshot]: the live
    [StorageEngine]s and the live [std::vector<uint32_t>]s, by address, and
    the calls made so far.  A pointer is [None] when null. *)
Record World (E : Type) : Type := mkWorld {
  engines : gmap nat E;
  fileid_sets : gmap nat (list Z);
  trace : list Event
}.
Arguments mkWorld {E}.
Arguments engines {E}.
Arguments fileid_sets {E}.
Arguments trace {E}.

Record Snapshot (DatabaseOptions : Type) : Type := mkSnapshot {
  db_options_ : DatabaseOptions;
  dbname_ : string;
  se_live_ : option nat;
  se_readonly_ : option nat;
  snapshot_id_ : Z;
  fileids_iterator_ : option nat;
  is_closed_ : bool
}.
Arguments mkSnapshot {DatabaseOptions}.
Arguments db_options_ {DatabaseOptions}.
Arguments dbname_ {DatabaseOptions}.
Arguments se_live_ {DatabaseOptions}.
Arguments se_readonly_ {DatabaseOptions}.
Arguments snapshot_id_ {DatabaseOptions}.
Arguments fileids_iterator_ {DatabaseOptions}.
Arguments is_closed_ {DatabaseOptions}.

(** [Iterator(read_options, se_readonly_, fileids_iterator_)] *)
Record Iterator (ReadOptions : Type) : Type := mkIterator {
  it_read_options : ReadOptions;
  it_se_readonly : option nat;
  it_fileids_iterator : option nat
}.
Arguments mkIterator {ReadOptions}.

(** Methods run on the object and the world, and have no result when they
    use a dangling or null pointer. *)
Definition M (S A : Type) : Type := S -> option (A * S).

#[global] Instance M_ret {S} : MRet (M S) := fun A a s => Some (a, s).
#[global] Instance M_bind {S} : MBind (M S) :=
  fun A B f c s => match c s with Some (a, s') => f a s' | None => None end.

Section Snapshot.
Context {DatabaseOptions ReadOptions WriteOptions E : Type}.
Context `{!StorageEngine E}.

Abbreviation state := (Snapshot DatabaseOptions * World E)%type.
Abbreviation method := (M state).

Definition this : method (Snapshot DatabaseOptions) :=
  fun st => Some (fst st, st).

(** The snapshot with [is_closed_] set. *)
Definition closed (s : Snapshot DatabaseOptions) : Snapshot DatabaseOptions :=
  mkSnapshot (db_options_ s) (dbname_ s) (se_live_ s) (se_readonly_ s)
    (snapshot_id_ s) (fileids_iterator_ s) true.

Definition set_is_closed : method unit :=
  fun '(s, w) => Some (tt, (closed s, w)).

(** [delete p] for a [std::vector<uint32_t>*]: nothing for a null pointer,
    undefined for a vector already deleted. *)
Definition delete_fileids (p : option nat) : method unit :=
  fun '(s, w) =>
    match p with
    | None => Some (tt, (s, w))
    | Some a =>
        _ ← fileid_sets w !! a;
        Some (tt, (s, mkWorld (engines w) (delete a (fileid_sets w))
                        (trace w ++ [EvDeleteFileIds a])))
    end.

(** [delete p] for a [StorageEngine*]. *)
Definition delete_engine (p : option nat) : method unit :=
  fun '(s, w) =>
    match p with
    | None => Some (tt, (s, w))
    | Some a =>
        _ ← engines w !! a;
        Some (tt, (s, mkWorld (delete a (engines w)) (fileid_sets w)
                        (trace w ++ [EvDeleteEngine a])))
    end.

(** [p->ReleaseSnapshot(id)] *)
Definition call_ReleaseSnapshot (p : option nat) (id : Z) : method unit :=
  fun '(s, w) =>
    a ← p;
    e ← engines w !! a;
    Some (tt, (s, mkWorld (<[a := se_ReleaseSnapshot e id]> (engines w))
                    (fileid_sets w) (trace w ++ [EvReleaseSnapshot a id]))).

(** [p->Get(key, value_out)] *)
Definition call_Get (p : option nat) (key : ByteArray)
  : method (Status.t * option ByteArray) :=
  fun '(s, w) =>
    a ← p;
    e ← engines w !! a;
    let '(st, value, e') := se_Get e key in
    Some ((st, value), (s, mkWorld (<[a := e']> (engines w)) (fileid_sets w)
                             (trace w ++ [EvGet a key]))).

(** [Snapshot(db_options, dbname, se_live, se_readonly, fileids_iterator,
    snapshot_id)] *)
Definition Snapshot_ctor (db_options : DatabaseOptions) (dbname : string)
    (se_live se_readonly fileids_iterator : option nat) (snapshot_id : Z)
  : Snapshot DatabaseOptions :=
  mkSnapshot db_options dbname se_live se_readonly (u32 snapshot_id)
    fileids_iterator false.

(** [Snapshot::Open()] *)
Definition Open : method Status.t := mret Status.OK.

(** [Snapshot::Close()].  The lock on [mutex_close_] makes the calls run one
    after the other; that is how they run here. *)
Definition Close : method unit :=
  s ← this;
  if is_closed_ s then mret tt
  else
    set_is_closed;;
    delete_fileids (fileids_iterator_ s);;
    call_ReleaseSnapshot (se_live_ s) (snapshot_id_ s);;
    delete_engine (se_readonly_ s).

(** [Snapshot::~Snapshot()]; the line it logs is not modelled. *)
Definition Snapshot_dtor : method unit := Close.

(** [Snapshot::Get(read_options, key, value_out)]; each branch logs a
    line, which is not modelled, and returns [s]. *)
Definition Get (read_options : ReadOptions) (key : ByteArray)
  : method (Status.t * option ByteArray) :=
  s0 ← this;
  '(s, value) ← call_Get (se_readonly_ s0) key;
  if Status.IsNotFound s then mret (s, value)
  else if Status.IsOK s then mret (s, value)
  else mret (s, value).

(** [Snapshot::Put(write_options, key, chunk)] *)
Definition Put (write_options : WriteOptions) (key chunk : ByteArray)
  : method Status.t :=
  mret (Status.IOError "Not supported").

(** [Snapshot::PutChunk(write_options, key, chunk, offset_chunk,
    size_value)] *)
Definition PutChunk (write_options : WriteOptions) (key chunk : ByteArray)
    (offset_chunk size_value : Z) : method Status.t :=
  mret (Status.IOError "Not supported").

(** [Snapshot::Remove(write_options, key)] *)
Definition Remove (write_options : WriteOptions) (key : ByteArray)
  : method Status.t :=
  mret (Status.IOError "Not supported").

(** [Snapshot::NewSnapshot()]: [nullptr]. *)
Definition NewSnapshot : method (option nat) := mret None.

(** [Snapshot::NewIterator(read_options)] *)
Definition NewIterator (read_options : ReadOptions)
  : method (Iterator ReadOptions) :=
  s ← this;
  mret (mkIterator read_options (se_readonly_ s) (fileids_iterator_ s)).

(** A call of [Close()] or the run of the destructor. *)
Inductive closing : Set :=
  | CallClose
  | RunDtor.

Definition run_closing (c : closing) : method unit :=
  match c with
  | CallClose => Close
  | RunDtor => Snapshot_dtor
  end.

Fixpoint run_closings (cs : list closing) : method unit :=
  match cs with
  | [] => mret tt
  | c :: cs' => run_closing c;; run_closings cs'
  end.

End Snapshot.

(** ** Concrete collaborators *)

Module Concrete.

(** Modelled from the spec: [compressor.h] is not among the sources.  A
    run-length codec standing in for [CompressorLZ4], with the shape the
    specification gives the codec: one frame of compressed data decoded
    per call into a freshly allocated buffer, [Done] once the source is used
    up.  A frame is two bytes, a count and a value; it decodes to the value
    repeated count times.  The compressor's state is the number of source
    bytes already decoded. *)
Definition rle_Uncompress (c : Z) (m : mem) (source : ptr)
    (size_source_total : Z) (dest : ptr) (size_dest : Z) : uncompressed Z :=
  if bool_decide (c = size_source_total) then
    mkUncompressed Status.Done dest size_dest nullptr 0 c m
  else
    match load m (ptr_add source c) 2 with
    | Some [n; b] =>
        let out := replicate (N.to_nat (Byte.to_N n)) b in
        let '(blk, m') := alloc m out in
        mkUncompressed Status.OK (Ptr blk 0) (Z.of_N (Byte.to_N n))
          (ptr_add source c) 2 (c + 2) m'
    | _ =>
        mkUncompressed (Status.IOError "Uncompress failed") dest size_dest
          nullptr 0 c m
    end.

#[global] Instance rle : Compressor Z :=
  {| compressor_Reset := fun _ => 0; Uncompress := rle_Uncompress |}.

(** Modelled from the spec: [crc32c.h] is not among the sources.  A
    polynomial rolling checksum of 32 bits standing in for [CRC32], with the
    specification's [reset], [stream] and [get]. *)
Definition roll_stream (h : Z) (bs : list byte) : Z :=
  foldl (fun h b => u32 (h * 31 + Z.of_N (Byte.to_N b))) h bs.

#[global] Instance roll : CRC32 Z :=
  {| crc_reset := fun _ => 0;
     crc_stream := roll_stream;
     crc_get := fun h => h |}.

(** Modelled from the spec: the [StorageEngine] class is not among the
    sources.  An engine with the specification's [Get] and
    [ReleaseSnapshot]: a table from key bytes to values, the store in which
    keys are read, and the snapshot identifiers registered with it. *)
Record table_engine : Type := mkTableEngine {
  te_mem : mem;
  te_table : list (list byte * ByteArray);
  te_snapshots : list Z
}.

Fixpoint te_find (k : list byte) (t : list (list byte * ByteArray))
  : option ByteArray :=
  match t with
  | [] => None
  | (k', v) :: t' => if bool_decide (k = k') then Some v else te_find k t'
  end.

Definition te_Get (e : table_engine) (key : ByteArray)
  : Status.t * option ByteArray * table_engine :=
  match bytes (te_mem e) key with
  | None => (Status.IOError "Unreadable key", None, e)
  | Some k =>
      match te_find k (te_table e) with
      | Some v => (Status.OK, Some v, e)
      | None => (Status.NotFound "Unable to find the entry", None, e)
      end
  end.

Definition te_ReleaseSnapshot (e : table_engine) (id : Z) : table_engine :=
  mkTableEngine (te_mem e) (te_table e)
    (filter (fun i => i <> id) (te_snapshots e)).

#[global] Instance table : StorageEngine table_engine :=
  {| se_Get := te_Get; se_ReleaseSnapshot := te_ReleaseSnapshot |}.

(** An operating system with one file, ["db/00000001"], that maps at block
    7; [mmap] through a negative descriptor fails. *)
Definition one_file : OS :=
  {| os_open := fun path =>
       if bool_decide (path = "db/00000001") then 3 else -1;
     os_mmap := fun len fd =>
       if bool_decide (fd = 3 /\ 0 < len) then Mapped (Ptr 7 0)
       else MAP_FAILED |}.

(** Bytes of the examples. *)
Definition b_a : byte := Byte.x61.
Definition b_b : byte := Byte.x62.
Definition b_c : byte := Byte.x63.

(** A store with one block, at 7: two run-length frames, then the three
    bytes ["a\0b"]. *)
Definition m0 : mem :=
  {[ 7%nat := [Byte.x02; b_a; Byte.x03; b_b; b_a; NUL; b_b] ]}.

(** A view of the two frames of [m0], with [crc] as stored checksum. *)
Definition two_frames (crc : Z) : SharedMmappedByteArray Z Z :=
  mkSharedMmapped (mkByteArray (Ptr 7 0) 5 4 crc true) 0 0
    (Some (mkMmap 3 7 (Ptr 7 0) "db/00000001")) 0.

(** The view of [two_frames] once both frames are decoded: the compressor
    has used up the four source bytes and the hasher has been given both
    frames. *)
Definition two_frames_decoded (crc : Z) : SharedMmappedByteArray Z Z :=
  mkSharedMmapped (mkByteArray (Ptr 7 0) 5 4 crc true) 4
    (roll_stream 0 [Byte.x02; b_a; Byte.x03; b_b])
    (Some (mkMmap 3 7 (Ptr 7 0) "db/00000001")) 0.

(** A view of the last three bytes of [m0], stored without compression. *)
Definition plain_view : SharedMmappedByteArray Z Z :=
  mkSharedMmapped (mkByteArray (Ptr 7 4) 3 0 0 false) 0 0
    (Some (mkMmap 3 7 (Ptr 7 0) "db/00000001")) 4.

(** A store with two spans that agree up to a NUL and differ after it. *)
Definition m1 : mem :=
  {[ 1%nat := [b_a; NUL; b_b]; 2%nat := [b_a; NUL; b_c] ]}.

(** A live engine at address 1 and a frozen one at address 2, holding one
    entry under the key ["a\0b"], the file-id set [1; 2; 3] at address 5,
    and the snapshot 42 over them. *)
Definition engine0 : table_engine :=
  mkTableEngine m1
    [([b_a; NUL; b_b], mkByteArray (Ptr 2 0) 3 0 0 false)] [42].

Definition world0 : World table_engine :=
  mkWorld {[ 1%nat := engine0; 2%nat := engine0 ]} {[ 5%nat := [1; 2; 3] ]} [].

Definition snapshot0 : Snapshot unit :=
  Snapshot_ctor tt "db" (Some 1%nat) (Some 2%nat) (Some 5%nat) 42.

Definition key0 : ByteArray := mkByteArray (Ptr 1 0) 3 0 0 false.

End Concrete.

(** ** The other methods of ByteArray *)

(** What a libc string function can read from [p] on: the rest of the block
    [p] points into.  Nothing can be read through [nullptr]. *)
Definition readable_from (m : mem) (p : ptr) : option (list byte) :=
  match p with
  | nullptr => Some []
  | Ptr b o =>
      bs ← m !! b;
      if bool_decide (0 <= o <= Z.of_nat (length bs))
      then Some (drop (Z.to_nat o) bs) else None
  end.

(** [strncmp(s1, s2, n)]: at most [n] bytes are compared, as
    [unsigned char]; the comparison ends at the first pair that differs and
    at a NUL the two strings share.  Running off either string is [None]. *)
Fixpoint strncmp (xs ys : list byte) (n : nat) {struct n}
  : option Z :=
  match n with
  | O => Some 0
  | S n' =>
      match xs, ys with
      | x :: xs', y :: ys' =>
          if bool_decide (x = y) then
            if bool_decide (x = NUL) then Some 0 else strncmp xs' ys' n'
          else Some (Z.of_N (Byte.to_N x) - Z.of_N (Byte.to_N y))
      | _, _ => None
      end
  end.

(** [ByteArray::StartsWith(substr, n)].  [n] is an [int]: in [n <= size_]
    it is converted to [uint64_t], and to [size_t] as the length given to
    [strncmp]. *)
Definition StartsWith (m : mem) (a : ByteArray) (substr : ptr) (n : Z)
  : option bool :=
  if bool_decide (u64 n <= size_ a) then
    xs ← readable_from m (data_ a);
    ys ← readable_from m substr;
    r ← strncmp xs ys (Z.to_nat (u64 n));
    Some (bool_decide (r = 0))
  else Some false.

(** [ByteArray::ToString()]: [std::string(data_, size_)], a copy of the
    [size_] bytes at [data_]. *)
Definition ToString (m : mem) (a : ByteArray) : option (list byte) :=
  load m (data_ a) (size_ a).

(** [SharedMmappedByteArray::datafile()]; [mmap_->] on an empty
    [shared_ptr] is undefined. *)
Definition datafile {C H : Type} (v : SharedMmappedByteArray C H)
  : option ptr :=
  datafile_ <$> mmap_ v.

(** The bytes of a span before its first NUL. *)
Fixpoint before_NUL (xs : list byte) : list byte :=
  match xs with
  | [] => []
  | c :: xs' => if bool_decide (c = NUL) then [] else c :: before_NUL xs'
  end.

Arguments it_read_options {ReadOptions}.
Arguments it_se_readonly {ReadOptions}.
Arguments it_fileids_iterator {ReadOptions}.

(** Views of blocks 1 and 2 of [Concrete.m1], for the examples. *)
Definition view1 : ByteArray := mkByteArray (Ptr 1 0) 3 0 0 false.
Definition view2 : ByteArray := mkByteArray (Ptr 2 0) 3 0 0 false.

(** * Properties *)

(** ** Memory and libc *)

Lemma u64_id (x : Z) : 0 <= x < 2 ^ 64 -> u64 x = x.
Proof. intros Hx. unfold u64. apply Z.mod_small. exact Hx. Qed.

Lemma load_length (m : mem) (p : ptr) (n : Z) (xs : list byte) :
  load m p n = Some xs -> length xs = Z.to_nat n.
Proof.
  unfold load. destruct p as [|b o].
  - case_bool_decide; [|done]. intros [= <-]. subst n. reflexivity.
  - destruct (m !! b) as [bs|]; [|done].
    case_bool_decide; [|done]. intros [= <-].
    rewrite length_take, length_drop. lia.
Qed.

(** A span inside a readable span is readable, and holds the bytes of the
    larger one at its place. *)
Lemma load_sub (m : mem) (p : ptr) (len k n : Z) (buf : list byte) :
  load m p len = Some buf ->
  0 <= k -> 0 <= n -> k + n <= len ->
  load m (ptr_add p k) n = Some (take (Z.to_nat n) (drop (Z.to_nat k) buf)).
Proof.
  unfold load. intros Hload Hk Hn Hkn. destruct p as [|b o]; simpl.
  - case_bool_decide; [|done]. injection Hload as <-.
    assert (n = 0) as -> by lia. rewrite bool_decide_eq_true_2 by done.
    by rewrite take_0.
  - destruct (m !! b) as [bs|]; [|done].
    case_bool_decide as Hin; [|done]. injection Hload as <-.
    rewrite bool_decide_eq_true_2 by lia. f_equal.
    rewrite skipn_firstn_comm, firstn_firstn, drop_drop.
    f_equal; [lia|]. f_equal. lia.
Qed.

Lemma byte_to_N_inj (x y : byte) : Byte.to_N x = Byte.to_N y -> x = y.
Proof.
  intros Hxy. pose proof (Byte.of_to_N x) as Hx.
  rewrite Hxy, Byte.of_to_N in Hx. congruence.
Qed.

Lemma memcmp_0_iff (xs ys : list byte) :
  length xs = length ys -> memcmp xs ys = 0 <-> xs = ys.
Proof.
  revert ys. induction xs as [|x xs IH]; intros [|y ys] Hlen; simpl in *;
    try done.
  case_bool_decide as Hxy.
  - subst y. rewrite IH by lia. split; [by intros ->|by intros [= ->]].
  - split; [|by intros [= ? ?]].
    intros H0. destruct Hxy. apply byte_to_N_inj. lia.
Qed.

Lemma strncpy_no_NUL (src : list byte) (n : nat) :
  (n <= length src)%nat -> NUL ∉ take n src ->
  strncpy src n = Some (take n src).
Proof.
  revert src. induction n as [|n IH]; intros [|c src] Hlen Hnul; simpl in *;
    try done; try lia.
  apply not_elem_of_cons in Hnul as [Hc Hnul].
  rewrite bool_decide_eq_false_2 by done.
  rewrite IH by (done || lia). reflexivity.
Qed.

Lemma lookup_alloc (m : mem) (bs : list byte) :
  (alloc m bs).2 !! (alloc m bs).1 = Some bs.
Proof. unfold alloc. simpl. apply lookup_insert_eq. Qed.

Lemma alloc_fresh (m : mem) (bs : list byte) : m !! (alloc m bs).1 = None.
Proof. unfold alloc. simpl. apply not_elem_of_dom, is_fresh. Qed.

(** ** ByteArray *)

(** C10.  [a == b] is true exactly when the two sizes are equal and the
    first [a.size()] bytes of [a] are the corresponding bytes of [b], NUL or
    not; it is reflexive and symmetric. *)
Theorem eq_op_content_equality (m : mem) (a b : ByteArray)
    (xs ys : list byte) :
  bytes m a = Some xs ->
  bytes m b = Some ys ->
  eq_op m a b = Some (bool_decide (size a = size b /\ xs = ys))
  /\ (eq_op m a b = Some true <->
      size a = size b /\ load m (data a) (size a) = load m (data b) (size a))
  /\ eq_op m a a = Some true
  /\ eq_op m b a = eq_op m a b.
Proof.
  unfold bytes, size, data. intros Ha Hb.
  assert (Hspec : forall a b xs ys,
             load m (data_ a) (size_ a) = Some xs ->
             load m (data_ b) (size_ b) = Some ys ->
             eq_op m a b = Some (bool_decide (size_ a = size_ b /\ xs = ys))).
  { clear. intros a b xs ys Ha Hb. unfold eq_op, size_const, data_const.
    case_bool_decide as Hsz.
    - pose proof (load_length _ _ _ _ Ha) as Hla.
      pose proof (load_length _ _ _ _ Hb) as Hlb.
      rewrite <- Hsz in Hb. rewrite Ha, Hb. simpl. f_equal.
      apply bool_decide_ext. rewrite memcmp_0_iff by congruence.
      tauto.
    - f_equal. symmetry. apply bool_decide_eq_false_2. tauto. }
  split; [by apply Hspec|]. split; [|split].
  - rewrite (Hspec a b xs ys) by done. split.
    + intros [= Hd]. apply bool_decide_eq_true_1 in Hd as [Hsz ->].
      split; [done|]. rewrite Ha. rewrite Hsz. done.
    + intros [Hsz Heq]. f_equal. apply bool_decide_eq_true_2.
      split; [done|]. rewrite Ha, Hsz, Hb in Heq. congruence.
  - rewrite (Hspec a a xs xs) by done. f_equal.
    by apply bool_decide_eq_true_2.
  - rewrite (Hspec a b xs ys), (Hspec b a ys xs) by done. f_equal.
    apply bool_decide_ext. split; intros [-> ->]; done.
Qed.

Lemma eq_op_content_equality_witness :
  eq_op Concrete.m1 (mkByteArray (Ptr 1 0) 3 0 0 false)
    (mkByteArray (Ptr 2 0) 3 0 0 false) = Some false
  /\ eq_op Concrete.m1 (mkByteArray (Ptr 1 0) 3 0 0 false)
       (mkByteArray (Ptr 1 0) 3 0 0 false) = Some true.
Proof.
  pose proof (eq_op_content_equality Concrete.m1
                (mkByteArray (Ptr 1 0) 3 0 0 false)
                (mkByteArray (Ptr 2 0) 3 0 0 false)
                [Concrete.b_a; NUL; Concrete.b_b]
                [Concrete.b_a; NUL; Concrete.b_c]
                eq_refl eq_refl) as (H1 & _ & H3 & _).
  split; [exact H1 | exact H3].
Defined.

(** ** AllocatedByteArray *)

(** A span without NUL is copied whole. *)
Lemma AllocatedByteArray_ctor_no_NUL (sc0 crc0 : Z) (m : mem) (data_in : ptr)
    (n : Z) (xs : list byte) :
  0 <= n < 2 ^ 64 ->
  load m data_in n = Some xs ->
  NUL ∉ xs ->
  exists a m', AllocatedByteArray_ctor sc0 crc0 data_in n m = Some (a, m')
    /\ size a = n /\ bytes m' a = Some xs.
Proof.
  intros Hn Hload Hnul. unfold AllocatedByteArray_ctor.
  rewrite (u64_id n Hn).
  assert (exists src, match data_in with
            | nullptr => if bool_decide (n = 0) then Some [] else None
            | Ptr b o =>
                bs ← m !! b;
                if bool_decide (0 <= o <= Z.of_nat (length bs))
                then Some (drop (Z.to_nat o) bs) else None
            end = Some src
            /\ xs = take (Z.to_nat n) src
            /\ (Z.to_nat n <= length src)%nat) as (src & -> & Hxs & Hlen).
  { unfold load in Hload. destruct data_in as [|b o].
    - case_bool_decide; [|done]. injection Hload as <-. subst n.
      exists []. done.
    - destruct (m !! b) as [bs|]; [|done]. simpl.
      case_bool_decide; [|done]. injection Hload as <-.
      exists (drop (Z.to_nat o) bs).
      rewrite bool_decide_eq_true_2 by lia.
      split; [done|]. split; [done|]. rewrite length_drop. lia. }
  simpl. subst xs. rewrite (strncpy_no_NUL _ _ Hlen Hnul). simpl.
  eexists _, _. split; [reflexivity|]. split; [reflexivity|].
  unfold bytes, load. simpl. rewrite lookup_insert_eq.
  rewrite bool_decide_eq_true_2 by (rewrite length_take; lia).
  f_equal. rewrite drop_0. apply take_ge. rewrite length_take. lia.
Qed.

(** C8.  The copy made by [AllocatedByteArray(data_in, size_in)] stops at
    the first NUL of the span: of the three bytes ["a\0b"] the new buffer
    holds ["a\0\0"], with [size()] 3. *)
Theorem AllocatedByteArray_ctor_stops_at_NUL :
  exists a m',
    AllocatedByteArray_ctor 0 0 (Ptr 7 4) 3 Concrete.m0 = Some (a, m')
    /\ size a = 3
    /\ load Concrete.m0 (Ptr 7 4) 3
       = Some [Concrete.b_a; NUL; Concrete.b_b]
    /\ bytes m' a = Some [Concrete.b_a; NUL; NUL]
    /\ bytes m' a <> load Concrete.m0 (Ptr 7 4) 3.
Proof.
  eexists _, _. split; [vm_compute; reflexivity|].
  repeat split; try (vm_compute; reflexivity).
  vm_compute. discriminate.
Qed.

(** ** Shared views *)

(** C9.  After [SetOffset(k, n)] with [k + n] inside the underlying buffer,
    a [SharedMmappedByteArray] over a mapping and a
    [SharedAllocatedByteArray] over a heap buffer have [size()] [n] and
    denote the bytes [k .. k + n) of the buffer. *)
Theorem SetOffset_view {C H : Type} (m : mem) (base : ptr) (len : Z)
    (buf : list byte) (k n : Z) :
  load m base len = Some buf ->
  0 <= k < 2 ^ 64 ->
  0 <= n < 2 ^ 64 ->
  k + n <= len ->
  (forall (v : SharedMmappedByteArray C H) (mm : Mmap),
      mmap_ v = Some mm -> datafile_ mm = base ->
      exists v', SharedMmapped_SetOffset k n v = Some v'
        /\ size (sm_base v') = n
        /\ bytes m (sm_base v')
           = Some (take (Z.to_nat n) (drop (Z.to_nat k) buf)))
  /\ (forall v : SharedAllocatedByteArray,
      data_allocated_ v = base ->
      size (sa_base (SharedAllocated_SetOffset k n v)) = n
      /\ bytes m (sa_base (SharedAllocated_SetOffset k n v))
         = Some (take (Z.to_nat n) (drop (Z.to_nat k) buf))).
Proof.
  intros Hbuf Hk Hn Hkn. split.
  - intros v mm Hmm <-. unfold SharedMmapped_SetOffset. rewrite Hmm. simpl.
    eexists. split; [reflexivity|]. unfold bytes, size. simpl.
    rewrite !u64_id by done. split; [done|].
    eapply load_sub; [exact Hbuf|lia..].
  - intros v <-. unfold SharedAllocated_SetOffset, bytes, size. simpl.
    rewrite !u64_id by done. split; [done|].
    eapply load_sub; [exact Hbuf|lia..].
Qed.

Lemma SetOffset_view_witness :
  bytes Concrete.m0
    (sa_base (SharedAllocated_SetOffset 4 3
                (SharedAllocatedByteArray_ctor 0 0 0 (Ptr 7 0) 7)))
  = Some [Concrete.b_a; NUL; Concrete.b_b].
Proof.
  assert (0 <= 4 < 2 ^ 64) as Hk by lia.
  assert (0 <= 3 < 2 ^ 64) as Hn by lia.
  assert (4 + 3 <= 7) as Hkn by lia.
  exact (proj2 (proj2 (@SetOffset_view Z Z Concrete.m0 (Ptr 7 0) 7
            [Byte.x02; Concrete.b_a; Byte.x03; Concrete.b_b; Concrete.b_a;
             NUL; Concrete.b_b] 4 3 eq_refl Hk Hn Hkn)
          (SharedAllocatedByteArray_ctor 0 0 0 (Ptr 7 0) 7) eq_refl)).
Defined.

(** ** Mmap *)

(** C5.  When [open] fails or [mmap] fails, the constructor of [Mmap] ends
    in [exit(-1)] and returns no object, and so does the constructor of a
    [SharedMmappedByteArray] over the file.  After a failed [open] the
    constructor calls [mmap] with the negative descriptor, which fails. *)
Theorem Mmap_ctor_fatal (os : OS) (filepath : string) (filesize : Z) :
  posix_mmap os ->
  os_open os filepath < 0
  \/ os_mmap os filesize (os_open os filepath) = MAP_FAILED ->
  (Mmap_ctor os filepath filesize).2 = Exited (-1)
  /\ forall (C H : Type) (HC : Compressor C) (HH : CRC32 H) sc0 crc0
       (c0 : C) (h0 : H) off0,
       SharedMmappedByteArray_ctor os sc0 crc0 c0 h0 off0 filepath filesize
       = Exited (-1).
Proof.
  intros Hposix Hfail.
  assert (os_mmap os filesize (os_open os filepath) = MAP_FAILED) as Hmap.
  { destruct Hfail as [Hopen|Hmap]; [by apply Hposix|done]. }
  assert ((Mmap_ctor os filepath filesize).2 = Exited (-1)) as Hctor.
  { unfold Mmap_ctor. by rewrite Hmap. }
  split; [done|]. intros. unfold SharedMmappedByteArray_ctor.
  by rewrite Hctor.
Qed.

Lemma posix_mmap_one_file : posix_mmap Concrete.one_file.
Proof.
  intros len fd Hfd. simpl.
  destruct (bool_decide (fd = 3 /\ 0 < len)) eqn:Hd; [|reflexivity].
  apply bool_decide_eq_true_1 in Hd. lia.
Defined.

Lemma Mmap_ctor_fatal_witness :
  (Mmap_ctor Concrete.one_file "db/00000002" 4096).2 = Exited (-1)
  /\ (Mmap_ctor Concrete.one_file "db/00000001" 0).2 = Exited (-1).
Proof.
  split.
  - apply (Mmap_ctor_fatal Concrete.one_file "db/00000002" 4096
             posix_mmap_one_file).
    left. vm_compute. reflexivity.
  - apply (Mmap_ctor_fatal Concrete.one_file "db/00000001" 0
             posix_mmap_one_file).
    right. vm_compute. reflexivity.
Defined.

(** The constructor returns the mapping exactly when [mmap] succeeds. *)
Lemma Mmap_ctor_returns (os : OS) (filepath : string) (filesize : Z)
    (p : ptr) :
  os_mmap os filesize (os_open os filepath) = Mapped p ->
  (Mmap_ctor os filepath filesize).2
  = Returned (mkMmap (os_open os filepath) filesize p filepath).
Proof. intros Hmap. unfold Mmap_ctor. by rewrite Hmap. Qed.

(** ** data_chunk *)

Section DataChunk.
Context {C H : Type} `{!Compressor C} `{!CRC32 H}.
Implicit Types (v : SharedMmappedByteArray C H) (m : mem).

(** C7.  For a stored value without compression ([size_compressed_] is 0,
    the test the method makes), one call of [data_chunk] hands out the
    view's own [data_] and [size_] with the status [Done]; the store and the
    object are as before the call: nothing is allocated or copied.  After
    [SetOffset(k, n)] what is handed out is the place [k] of the mapping,
    with the [n] bytes the mapping has there. *)
Theorem data_chunk_uncompressed v m :
  size_compressed_ (sm_base v) = 0 ->
  data_chunk v m
  = Some (mkChunk Status.Done (data_ (sm_base v)) (size_ (sm_base v)) v m)
  /\ forall (mm : Mmap) (len k n : Z) (buf : list byte),
       mmap_ v = Some mm ->
       load m (datafile_ mm) len = Some buf ->
       0 <= k < 2 ^ 64 -> 0 <= n < 2 ^ 64 -> k + n <= len ->
       exists v',
         SharedMmapped_SetOffset k n v = Some v'
         /\ data_chunk v' m
            = Some (mkChunk Status.Done (ptr_add (datafile_ mm) k) n v' m)
         /\ load m (ptr_add (datafile_ mm) k) n
            = Some (take (Z.to_nat n) (drop (Z.to_nat k) buf)).
Proof.
  intros Hsc. split.
  - unfold data_chunk. by rewrite bool_decide_eq_true_2.
  - intros mm len k n buf Hmm Hbuf Hk Hn Hkn.
    unfold SharedMmapped_SetOffset. rewrite Hmm. simpl.
    eexists. split; [reflexivity|]. rewrite !u64_id by done. split.
    + unfold data_chunk. simpl. by rewrite bool_decide_eq_true_2.
    + eapply load_sub; [exact Hbuf|lia..].
Qed.

(** The three ways a call on a compressed value ends. *)
Lemma data_chunk_bad_crc v m :
  size_compressed_ (sm_base v) <> 0 ->
  let r := Uncompress (compressor_ v) m (data_ (sm_base v))
             (size_compressed_ (sm_base v)) nullptr 0 in
  Status.IsDone (ur_status r) = true ->
  crc_get (crc32_ v) <> crc32_value_ (sm_base v) ->
  data_chunk v m
  = Some (mkChunk (Status.IOError "Bad CRC32") (ur_dest r) (ur_size_dest r)
            (mkSharedMmapped (sm_base v) (ur_state r) (crc32_ v) (mmap_ v)
               (sm_offset_ v))
            (ur_mem r)).
Proof.
  intros Hsc r Hdone Hcrc. unfold data_chunk.
  rewrite bool_decide_eq_false_2 by done. fold r. rewrite Hdone.
  rewrite (bool_decide_eq_false_2 _ Hcrc). reflexivity.
Qed.

Lemma data_chunk_not_OK v m :
  size_compressed_ (sm_base v) <> 0 ->
  let r := Uncompress (compressor_ v) m (data_ (sm_base v))
             (size_compressed_ (sm_base v)) nullptr 0 in
  Status.IsOK (ur_status r) = false ->
  Status.IsDone (ur_status r) = false
  \/ crc_get (crc32_ v) = crc32_value_ (sm_base v) ->
  data_chunk v m
  = Some (mkChunk (ur_status r) (ur_dest r) (ur_size_dest r)
            (mkSharedMmapped (sm_base v) (ur_state r) (crc32_ v) (mmap_ v)
               (sm_offset_ v))
            (ur_mem r)).
Proof.
  intros Hsc r Hok Hcase. unfold data_chunk.
  rewrite bool_decide_eq_false_2 by done. fold r. rewrite Hok. simpl.
  destruct Hcase as [-> | Hcrc]; [reflexivity|].
  rewrite (bool_decide_eq_true_2 _ Hcrc), andb_false_r. reflexivity.
Qed.

Lemma IsOK_not_IsDone (s : Status.t) :
  Status.IsOK s = true -> Status.IsDone s = false.
Proof.
  unfold Status.IsOK, Status.IsDone. intros Hok.
  apply bool_decide_eq_true_1 in Hok. apply bool_decide_eq_false_2.
  congruence.
Qed.

Lemma data_chunk_OK v m (frame : list byte) :
  size_compressed_ (sm_base v) <> 0 ->
  let r := Uncompress (compressor_ v) m (data_ (sm_base v))
             (size_compressed_ (sm_base v)) nullptr 0 in
  Status.IsOK (ur_status r) = true ->
  load (ur_mem r) (ur_frame r) (ur_size_frame r) = Some frame ->
  data_chunk v m
  = Some (mkChunk Status.OK (ur_dest r) (ur_size_dest r)
            (mkSharedMmapped (sm_base v) (ur_state r)
               (crc_stream (crc32_ v) frame) (mmap_ v) (sm_offset_ v))
            (ur_mem r)).
Proof.
  intros Hsc r Hok Hframe. unfold data_chunk.
  rewrite bool_decide_eq_false_2 by done. fold r.
  rewrite (IsOK_not_IsDone _ Hok), Hok, Hframe. reflexivity.
Qed.

(** C2.  When the codec answers [Done] and the checksum computed so far is
    not the stored one, [data_chunk] returns [Status::IOError("Bad CRC32")]:
    a status of the kind [IOError], neither [OK] nor [Done].  A status with
    which the codec fails is returned as the codec gave it. *)
Theorem data_chunk_checksum_mismatch v m :
  size_compressed_ (sm_base v) <> 0 ->
  let r := Uncompress (compressor_ v) m (data_ (sm_base v))
             (size_compressed_ (sm_base v)) nullptr 0 in
  (Status.IsDone (ur_status r) = true ->
   crc_get (crc32_ v) <> crc32_value_ (sm_base v) ->
   exists res, data_chunk v m = Some res
     /\ cr_status res = Status.IOError "Bad CRC32"
     /\ Status.IsIOError (cr_status res) = true
     /\ Status.IsOK (cr_status res) = false
     /\ Status.IsDone (cr_status res) = false)
  /\ (Status.IsDone (ur_status r) = false ->
      Status.IsOK (ur_status r) = false ->
      exists res, data_chunk v m = Some res
        /\ cr_status res = ur_status r).
Proof.
  intros Hsc r. split.
  - intros Hdone Hcrc. eexists. split.
    + by apply data_chunk_bad_crc.
    + simpl. done.
  - intros Hdone Hok. eexists. split.
    + apply data_chunk_not_OK; [done..|by left].
    + reflexivity.
Qed.

(** C3.  For a value the codec decodes in [k] frames, calling [data_chunk]
    again and again hands out the [k] decoded chunks in order; each call
    gives the hasher the frame the codec reports for it (the bytes at
    [frame_out], not the decoded chunk); the call after the last frame ends
    with the codec's [Done] when the checksum over the [k] frames is the
    stored one, and with [IOError("Bad CRC32")] otherwise. *)
Theorem data_chunk_frames v m (frames : list (list byte))
    (chunks : list (ptr * Z)) (last : uncompressed C) (fuel : nat) :
  size_compressed_ (sm_base v) <> 0 ->
  codec_run (data_ (sm_base v)) (size_compressed_ (sm_base v))
    (compressor_ v) m frames chunks last ->
  (length frames < fuel)%nat ->
  let h := foldl crc_stream (crc32_ v) frames in
  exists res,
    read_chunks fuel v m = Some (chunks, res)
    /\ length chunks = length frames
    /\ crc32_ (cr_this res) = h
    /\ cr_mem res = ur_mem last
    /\ cr_status res
       = (if bool_decide (crc_get h = crc32_value_ (sm_base v))
          then ur_status last else Status.IOError "Bad CRC32")
    /\ (Status.IsDone (cr_status res) = true <->
        crc_get h = crc32_value_ (sm_base v)).
Proof.
  intros Hsc Hrun. remember (sm_base v) as a eqn:Ha.
  remember (compressor_ v) as c eqn:Hc.
  revert v Ha Hc fuel.
  induction Hrun as [c m r Hr Hdone | c m r frame frames chunks last Hr Hok
                       Hframe Hrun IH];
    intros v Ha Hc fuel Hfuel h; subst a c.
  - destruct fuel as [|fuel]; [simpl in Hfuel; lia|]. simpl in h. subst h.
    simpl. destruct (decide (crc_get (crc32_ v) = crc32_value_ (sm_base v)))
      as [Hcrc|Hcrc].
    + rewrite data_chunk_not_OK; [|done| |by right]; rewrite <- Hr.
      2:{ unfold Status.IsOK, Status.IsDone in *.
          apply bool_decide_eq_true_1 in Hdone.
          apply bool_decide_eq_false_2. congruence. }
      simpl. replace (Status.IsOK (ur_status r)) with false.
      2:{ symmetry. unfold Status.IsOK, Status.IsDone in *.
          apply bool_decide_eq_true_1 in Hdone.
          apply bool_decide_eq_false_2. congruence. }
      eexists. split; [reflexivity|]. simpl.
      rewrite (bool_decide_eq_true_2 _ Hcrc). repeat split; done.
    + rewrite data_chunk_bad_crc; [|done|by rewrite <- Hr|done].
      rewrite <- Hr. simpl.
      eexists. split; [reflexivity|]. simpl.
      rewrite (bool_decide_eq_false_2 _ Hcrc). repeat split; done.
  - destruct fuel as [|fuel]; [simpl in Hfuel; lia|]. simpl in Hfuel.
    simpl. rewrite (data_chunk_OK v m frame); [|done|by rewrite <- Hr..].
    rewrite <- Hr. simpl.
    set (v1 := mkSharedMmapped (sm_base v) (ur_state r)
                 (crc_stream (crc32_ v) frame) (mmap_ v) (sm_offset_ v)).
    destruct (IH v1 eq_refl eq_refl fuel ltac:(lia))
      as (res & Hread & Hlen & Hh & Hmem & Hst & Hiff).
    rewrite Hread. simpl. exists res.
    split; [reflexivity|]. split; [by rewrite Hlen|].
    subst h. simpl. done.
Qed.

End DataChunk.

(** ** data_chunk at concrete inputs *)

Lemma data_chunk_uncompressed_witness :
  data_chunk Concrete.plain_view Concrete.m0
  = Some (mkChunk Status.Done (Ptr 7 4) 3 Concrete.plain_view Concrete.m0).
Proof.
  exact (proj1 (data_chunk_uncompressed Concrete.plain_view Concrete.m0
                  eq_refl)).
Defined.

Lemma data_chunk_checksum_mismatch_witness :
  exists res,
    data_chunk (Concrete.two_frames_decoded 0) Concrete.m0 = Some res
    /\ cr_status res = Status.IOError "Bad CRC32"
    /\ Status.IsIOError (cr_status res) = true
    /\ Status.IsOK (cr_status res) = false
    /\ Status.IsDone (cr_status res) = false.
Proof.
  apply (proj1 (data_chunk_checksum_mismatch (Concrete.two_frames_decoded 0)
                  Concrete.m0 ltac:(vm_compute; discriminate))).
  - vm_compute. reflexivity.
  - vm_compute. discriminate.
Defined.

(** C2, as the specification states it, fails: on a checksum mismatch the
    status is not of the kind [ChecksumError]; it is the [IOError] status
    [Status::IOError("Bad CRC32")]. *)
Lemma data_chunk_mismatch_is_IOError :
  exists res,
    data_chunk (Concrete.two_frames_decoded 0) Concrete.m0 = Some res
    /\ Status.IsDone
         (ur_status (Uncompress 4 Concrete.m0 (Ptr 7 0) 4 nullptr 0)) = true
    /\ crc_get (crc32_ (Concrete.two_frames_decoded 0)) <> 0
    /\ Status.code (cr_status res) <> Status.kChecksumError
    /\ cr_status res = Status.IOError "Bad CRC32".
Proof.
  eexists. split; [vm_compute; reflexivity|].
  split; [vm_compute; reflexivity|].
  split; [vm_compute; discriminate|].
  split; [vm_compute; discriminate|reflexivity].
Qed.

(** The run-length codec decodes the value of [two_frames] in two frames. *)
Lemma codec_run_two_frames :
  exists last,
    codec_run (C := Z) (Ptr 7 0) 4 0 Concrete.m0
      [[Byte.x02; Concrete.b_a]; [Byte.x03; Concrete.b_b]]
      [(Ptr 8 0, 2); (Ptr 9 0, 3)] last
    /\ ur_status last = Status.Done.
Proof.
  set (r1 := Uncompress 0 Concrete.m0 (Ptr 7 0) 4 nullptr 0).
  set (r2 := Uncompress (ur_state r1) (ur_mem r1) (Ptr 7 0) 4 nullptr 0).
  exists (Uncompress (ur_state r2) (ur_mem r2) (Ptr 7 0) 4 nullptr 0).
  split; [|reflexivity].
  apply (codec_run_frame (C := Z) (Ptr 7 0) 4 0 Concrete.m0 r1
           [Byte.x02; Concrete.b_a] [[Byte.x03; Concrete.b_b]]
           [(Ptr 9 0, 3)] _ eq_refl eq_refl eq_refl).
  apply (codec_run_frame (C := Z) (Ptr 7 0) 4 (ur_state r1) (ur_mem r1) r2
           [Byte.x03; Concrete.b_b] [] [] _ eq_refl eq_refl eq_refl).
  apply codec_run_done; reflexivity.
Defined.

Lemma data_chunk_frames_witness :
  exists res,
    read_chunks 3 (Concrete.two_frames 152990) Concrete.m0
    = Some ([(Ptr 8 0, 2); (Ptr 9 0, 3)], res)
    /\ Status.IsDone (cr_status res) = true.
Proof.
  destruct codec_run_two_frames as (last & Hrun & Hlast).
  destruct (data_chunk_frames (Concrete.two_frames 152990) Concrete.m0
              _ _ last 3 ltac:(vm_compute; discriminate) Hrun
              ltac:(simpl; lia))
    as (res & Hread & _ & _ & _ & _ & Hiff).
  exists res. split; [exact Hread|]. apply Hiff. vm_compute. reflexivity.
Defined.

(** C3, as the specification states it, fails: the stored checksum of
    [two_frames] is here the checksum of the whole decoded stream ["aabbb"],
    and the call that follows the last frame does not end with [Done]: the
    hasher was given the frames [02 'a'] and [03 'b']. *)
Lemma data_chunk_checksum_not_over_decoded :
  exists chunks res,
    read_chunks 3 (Concrete.two_frames 92568578) Concrete.m0
    = Some (chunks, res)
    /\ decoded_stream (cr_mem res) chunks
       = Some [Concrete.b_a; Concrete.b_a; Concrete.b_b; Concrete.b_b;
               Concrete.b_b]
    /\ crc_get (crc_stream (crc_reset 0)
                  [Concrete.b_a; Concrete.b_a; Concrete.b_b; Concrete.b_b;
                   Concrete.b_b])
       = crc32_value_ (sm_base (Concrete.two_frames 92568578))
    /\ Status.IsDone (cr_status res) = false
    /\ cr_status res = Status.IOError "Bad CRC32".
Proof.
  eexists _, _. split; [vm_compute; reflexivity|].
  repeat split; vm_compute; reflexivity.
Qed.

(** ** Snapshot *)

Section SnapshotProperties.
Context {DatabaseOptions ReadOptions WriteOptions E : Type}.
Context `{!StorageEngine E}.
Implicit Types (s : Snapshot DatabaseOptions) (w : World E).
Implicit Types (st : Snapshot DatabaseOptions * World E).

(** C1.  On every snapshot, open or closed, [Put], [PutChunk] and [Remove]
    return [Status::IOError("Not supported")], a status of the kind
    [IOError], and leave the snapshot, both engines and the file-id set as
    they were. *)
Theorem Snapshot_writes_rejected st (write_options : WriteOptions)
    (key chunk : ByteArray) (offset_chunk size_value : Z) :
  Put write_options key chunk st
  = Some (Status.IOError "Not supported", st)
  /\ PutChunk write_options key chunk offset_chunk size_value st
     = Some (Status.IOError "Not supported", st)
  /\ Remove write_options key st
     = Some (Status.IOError "Not supported", st)
  /\ Status.IsIOError (Status.IOError "Not supported") = true.
Proof. repeat split. Qed.

(** On a closed snapshot [Close()] does nothing. *)
Lemma Close_closed st : is_closed_ st.1 = true -> Close st = Some (tt, st).
Proof.
  intros Hc. unfold Close, this, mbind, M_bind. simpl. rewrite Hc.
  reflexivity.
Qed.

(** The first [Close()]. *)
Lemma Close_open s w (f l r : nat) (fs : list Z) (el : E) :
  is_closed_ s = false ->
  fileids_iterator_ s = Some f -> fileid_sets w !! f = Some fs ->
  se_live_ s = Some l -> engines w !! l = Some el ->
  se_readonly_ s = Some r -> is_Some (engines w !! r) ->
  Close (s, w)
  = Some (tt, (closed s,
               mkWorld
                 (delete r (<[l := se_ReleaseSnapshot el (snapshot_id_ s)]>
                              (engines w)))
                 (delete f (fileid_sets w))
                 (trace w ++ [EvDeleteFileIds f;
                              EvReleaseSnapshot l (snapshot_id_ s);
                              EvDeleteEngine r]))).
Proof.
  intros Hc Hf Hfs Hl Hel Hr [er Her].
  unfold Close, this, set_is_closed, delete_fileids, call_ReleaseSnapshot,
    delete_engine, mbind, M_bind. simpl. rewrite Hc, Hf, Hl, Hr. simpl.
  rewrite Hfs. simpl. rewrite Hel. simpl.
  destruct (decide (l = r)) as [->|Hne].
  - rewrite lookup_insert_eq. simpl. do 4 f_equal.
    rewrite <- !(assoc_L (++)). reflexivity.
  - rewrite lookup_insert_ne by done. rewrite Her. simpl. do 4 f_equal.
    rewrite <- !(assoc_L (++)). reflexivity.
Qed.

(** C4.  From an open snapshot whose three pointers are live, any
    non-empty sequence of [Close()] calls and destructor runs deletes the
    file-id set once, calls [ReleaseSnapshot(snapshot_id_)] on the live
    engine once and deletes the read-only engine once, in this order, and
    uses no deleted object; on a closed snapshot a call or a destructor run
    changes nothing. *)
Theorem Close_exactly_once s w (cs : list closing) (f l r : nat)
    (fs : list Z) (el : E) :
  is_closed_ s = false ->
  fileids_iterator_ s = Some f -> fileid_sets w !! f = Some fs ->
  se_live_ s = Some l -> engines w !! l = Some el ->
  se_readonly_ s = Some r -> is_Some (engines w !! r) ->
  cs <> [] ->
  run_closings cs (s, w)
  = Some (tt, (closed s,
               mkWorld
                 (delete r (<[l := se_ReleaseSnapshot el (snapshot_id_ s)]>
                              (engines w)))
                 (delete f (fileid_sets w))
                 (trace w ++ [EvDeleteFileIds f;
                              EvReleaseSnapshot l (snapshot_id_ s);
                              EvDeleteEngine r])))
  /\ forall (c : closing) st,
       is_closed_ st.1 = true -> run_closing c st = Some (tt, st).
Proof.
  intros Hc Hf Hfs Hl Hel Hr Her Hcs.
  assert (Hidem : forall (c : closing) st,
             is_closed_ st.1 = true -> run_closing c st = Some (tt, st)).
  { intros [|] st Hst; simpl; by apply Close_closed. }
  split; [|exact Hidem].
  destruct cs as [|c cs]; [done|]. clear Hcs.
  assert (run_closing c (s, w) = Close (s, w)) as Hfirst by (by destruct c).
  change (run_closings (c :: cs) (s, w))
    with (match run_closing c (s, w) with
          | Some (_, st') => run_closings cs st'
          | None => None
          end).
  rewrite Hfirst, (Close_open s w f l r fs el) by done.
  set (st1 := (closed s, _)).
  assert (is_closed_ st1.1 = true) as Hst1 by reflexivity.
  clearbody st1. induction cs as [|c' cs IH]; [reflexivity|].
  change (run_closings (c' :: cs) st1)
    with (match run_closing c' st1 with
          | Some (_, st') => run_closings cs st'
          | None => None
          end).
  by rewrite Hidem.
Qed.

(** C6.  [Get] returns the status and the value of the read-only engine's
    [Get] for the key, whatever the status; every call goes to that engine
    (one call recorded, the engine left as its [Get] left it); the snapshot
    and every other object, the live engine among them, stay as they
    were. *)
Theorem Get_delegates s w (read_options : ReadOptions) (key : ByteArray)
    (r : nat) (e : E) :
  se_readonly_ s = Some r ->
  engines w !! r = Some e ->
  let w' := mkWorld (<[r := (se_Get e key).2]> (engines w)) (fileid_sets w)
              (trace w ++ [EvGet r key]) in
  Get read_options key (s, w) = Some ((se_Get e key).1, (s, w'))
  /\ (forall l, se_live_ s = Some l -> l <> r ->
        engines w' !! l = engines w !! l)
  /\ (Status.IsNotFound (se_Get e key).1.1 = true ->
      exists value st',
        Get read_options key (s, w) = Some (((se_Get e key).1.1, value), st')
        /\ Status.code (se_Get e key).1.1 = Status.kNotFound).
Proof.
  intros Hr He w'.
  assert (Get read_options key (s, w) = Some ((se_Get e key).1, (s, w')))
    as HGet.
  { unfold Get, this, call_Get, mbind, M_bind, mret, M_ret. simpl.
    rewrite Hr. simpl. rewrite He. simpl. subst w'.
    destruct (se_Get e key) as [[status value] e']. simpl.
    destruct (Status.IsNotFound status); [reflexivity|].
    destruct (Status.IsOK status); reflexivity. }
  split; [exact HGet|]. split.
  - intros l _ Hne. subst w'. simpl. by rewrite lookup_insert_ne.
  - intros Hnf. exists (se_Get e key).1.2, (s, w'). split.
    + rewrite HGet. by destruct (se_Get e key) as [[??]?].
    + unfold Status.IsNotFound in Hnf. by apply bool_decide_eq_true_1 in Hnf.
Qed.

End SnapshotProperties.

(** ** Snapshot at concrete inputs *)

(** C1, as the specification states it, fails: the status [Put] returns is
    not of the kind [UnsupportedOperation]; its kind is [IOError]. *)
Lemma Put_not_UnsupportedOperation :
  exists status st',
    Put (WriteOptions := unit) tt Concrete.key0 Concrete.key0
      (Concrete.snapshot0, Concrete.world0) = Some (status, st')
    /\ Status.code status <> Status.kUnsupportedOperation
    /\ Status.code status = Status.kIOError.
Proof.
  eexists _, _. split; [reflexivity|]. split; [discriminate|reflexivity].
Qed.

Lemma Close_exactly_once_witness :
  exists w',
    run_closings [CallClose; CallClose; RunDtor]
      (Concrete.snapshot0, Concrete.world0)
    = Some (tt, (closed Concrete.snapshot0, w'))
    /\ trace w'
       = [EvDeleteFileIds 5; EvReleaseSnapshot 1 42; EvDeleteEngine 2].
Proof.
  eexists. split.
  - apply (Close_exactly_once Concrete.snapshot0 Concrete.world0
             [CallClose; CallClose; RunDtor] 5%nat 1%nat 2%nat [1; 2; 3]
             Concrete.engine0);
      try reflexivity.
    + exists Concrete.engine0. reflexivity.
    + discriminate.
  - reflexivity.
Defined.

Lemma Get_delegates_witness :
  exists w',
    Get (ReadOptions := unit) tt Concrete.key0
      (Concrete.snapshot0, Concrete.world0)
    = Some ((Status.OK, Some (mkByteArray (Ptr 2 0) 3 0 0 false)),
            (Concrete.snapshot0, w'))
    /\ engines w' !! 1%nat = Some Concrete.engine0.
Proof.
  eexists. split.
  - exact (proj1 (Get_delegates Concrete.snapshot0 Concrete.world0 tt
                    Concrete.key0 2%nat Concrete.engine0 eq_refl eq_refl)).
  - reflexivity.
Defined.

(** * Further properties *)

(** ** Reading spans *)

Lemma load_readable_from (m : mem) (p : ptr) (n : Z) (zs : list byte) :
  load m p n = Some zs ->
  exists tl, readable_from m p = Some tl
    /\ zs = take (Z.to_nat n) tl
    /\ (Z.to_nat n <= length tl)%nat
    /\ 0 <= n.
Proof.
  unfold load, readable_from. destruct p as [|b o].
  - case_bool_decide; [|done]. intros [= <-]. subst n. exists [].
    repeat split; done.
  - destruct (m !! b) as [bs|]; [|done]. simpl.
    case_bool_decide as Hin; [|done]. intros [= <-].
    exists (drop (Z.to_nat o) bs). rewrite bool_decide_eq_true_2 by lia.
    repeat split; try done; [rewrite length_drop|]; lia.
Qed.

Lemma load_app (m : mem) (p : ptr) (n k : Z) (xs ys : list byte) :
  load m p n = Some xs ->
  load m (ptr_add p n) k = Some ys ->
  load m p (n + k) = Some (xs ++ ys).
Proof.
  unfold load. destruct p as [|b o]; simpl.
  - case_bool_decide; [|done]. intros [= <-]. subst n.
    case_bool_decide; [|done]. intros [= <-]. subst k.
    by rewrite bool_decide_eq_true_2.
  - destruct (m !! b) as [bs|]; [|done].
    case_bool_decide as H1; [|done]. intros [= <-].
    case_bool_decide as H2; [|done]. intros [= <-].
    rewrite bool_decide_eq_true_2 by lia. f_equal.
    replace (Z.to_nat (o + n)) with (Z.to_nat o + Z.to_nat n)%nat by lia.
    replace (Z.to_nat (n + k)) with (Z.to_nat n + Z.to_nat k)%nat by lia.
    rewrite <- drop_drop. symmetry. apply take_take_drop.
Qed.

Lemma load_nonneg (m : mem) (p : ptr) (n : Z) (zs : list byte) :
  load m p n = Some zs -> 0 <= n.
Proof.
  intros Hload.
  by destruct (load_readable_from _ _ _ _ Hload) as (? & _ & _ & _ & ?).
Qed.

(** ** strncmp and StartsWith *)

Lemma strncmp_no_NUL (xs ys : list byte) (n : nat) :
  (n <= length xs)%nat -> (n <= length ys)%nat -> NUL ∉ take n ys ->
  exists r, strncmp xs ys n = Some r /\ (r = 0 <-> take n xs = take n ys).
Proof.
  revert xs ys. induction n as [|n IH]; intros xs ys Hx Hy Hnul.
  - exists 0. rewrite !take_0. done.
  - destruct xs as [|x xs]; [simpl in Hx; lia|].
    destruct ys as [|y ys]; [simpl in Hy; lia|].
    simpl in *. apply not_elem_of_cons in Hnul as [Hy0 Hnul].
    case_bool_decide as Hxy.
    + subst y. rewrite bool_decide_eq_false_2 by done.
      destruct (IH xs ys) as (r & -> & Hr); [lia..|done|].
      exists r. split; [done|]. rewrite Hr.
      split; [by intros ->|by intros [= ->]].
    + eexists. split; [reflexivity|]. split; [|by intros [= ? ?]].
      intros H0. destruct Hxy. apply byte_to_N_inj. lia.
Qed.

Lemma strncmp_common_NUL (xs ys : list byte) (n i : nat) :
  (i < n)%nat -> take i xs = take i ys -> NUL ∉ take i xs ->
  xs !! i = Some NUL -> ys !! i = Some NUL ->
  strncmp xs ys n = Some 0.
Proof.
  revert xs ys n. induction i as [|i IH]; intros xs ys n Hin Htake Hnul Hx Hy;
    (destruct n as [|n]; [lia|]);
    (destruct xs as [|x xs]; [done|]); (destruct ys as [|y ys]; [done|]);
    simpl in *.
  - injection Hx as ->. injection Hy as ->.
    by rewrite !bool_decide_eq_true_2.
  - injection Htake as -> Htake. apply not_elem_of_cons in Hnul as [Hy0 Hnul].
    rewrite bool_decide_eq_true_2 by done.
    rewrite bool_decide_eq_false_2 by done.
    apply IH; [lia|done..].
Qed.

Lemma u64_int_nonneg (n : Z) : 0 <= n < 2 ^ 31 -> u64 n = n.
Proof. intros Hn. apply u64_id. lia. Qed.

Lemma u64_int_neg (n : Z) : - 2 ^ 31 <= n < 0 -> u64 n = n + 2 ^ 64.
Proof.
  intros Hn. unfold u64. symmetry.
  apply (Z.mod_unique n (2 ^ 64) (-1) (n + 2 ^ 64)); lia.
Qed.

(** X1.  When the first [n] bytes of [substr] hold no NUL,
    [StartsWith(substr, n)] is true exactly when [n] is at most [size()] and
    the first [n] bytes of the view are those [n] bytes. *)
Theorem StartsWith_prefix (m : mem) (a : ByteArray) (substr : ptr) (n : Z)
    (xs ys : list byte) :
  0 <= n < 2 ^ 31 ->
  bytes m a = Some xs ->
  load m substr n = Some ys ->
  NUL ∉ ys ->
  StartsWith m a substr n
  = Some (bool_decide (n <= size a /\ take (Z.to_nat n) xs = ys)).
Proof.
  unfold bytes, size. intros Hn Ha Hs Hnul. unfold StartsWith.
  rewrite (u64_int_nonneg n Hn).
  destruct (load_readable_from _ _ _ _ Ha) as (ta & -> & -> & Hla & Hsz).
  destruct (load_readable_from _ _ _ _ Hs) as (ts & -> & -> & Hls & _).
  case_bool_decide as Hle; simpl.
  - destruct (strncmp_no_NUL ta ts (Z.to_nat n)) as (r & -> & Hr);
      [lia|done..|]. simpl. f_equal. apply bool_decide_ext.
    rewrite Hr, take_take. replace (Z.to_nat n `min` Z.to_nat (size_ a))%nat
      with (Z.to_nat n) by lia. tauto.
  - f_equal. symmetry. apply bool_decide_eq_false_2. tauto.
Qed.

Lemma StartsWith_prefix_witness :
  StartsWith Concrete.m0 (mkByteArray (Ptr 7 1) 3 0 0 false) (Ptr 7 4) 1
  = Some true.
Proof.
  assert (0 <= 1 < 2 ^ 31) as Hn by lia.
  assert (NUL ∉ [Concrete.b_a]) as Hnul.
  { intros Hin. apply list_elem_of_singleton in Hin. discriminate Hin. }
  exact (StartsWith_prefix Concrete.m0 (mkByteArray (Ptr 7 1) 3 0 0 false)
           (Ptr 7 4) 1 [Concrete.b_a; Byte.x03; Concrete.b_b] [Concrete.b_a]
           Hn eq_refl eq_refl Hnul).
Defined.

(** X2.  A negative [n] becomes a length of at least [2^64 - 2^31] in the
    comparison with [size_]: [StartsWith] answers false and reads
    nothing. *)
Theorem StartsWith_negative (m : mem) (a : ByteArray) (substr : ptr)
    (n : Z) :
  - 2 ^ 31 <= n < 0 ->
  size a < 2 ^ 64 - 2 ^ 31 ->
  StartsWith m a substr n = Some false.
Proof.
  unfold size. intros Hn Hsz. unfold StartsWith.
  rewrite (u64_int_neg n Hn). rewrite bool_decide_eq_false_2 by lia.
  reflexivity.
Qed.

Lemma StartsWith_negative_witness :
  StartsWith Concrete.m1 view1 nullptr (-1) = Some false.
Proof.
  apply StartsWith_negative; unfold size; simpl; lia.
Defined.

(** X3.  [StartsWith] compares strings: when the view and [substr] agree up
    to a NUL they both hold before the [n]-th byte, the answer is true
    whatever follows the NUL. *)
Theorem StartsWith_stops_at_NUL (m : mem) (a : ByteArray) (substr : ptr)
    (n : Z) (xs ys : list byte) (i : nat) :
  0 <= n < 2 ^ 31 ->
  n <= size a ->
  readable_from m (data a) = Some xs ->
  readable_from m substr = Some ys ->
  (i < Z.to_nat n)%nat ->
  take i xs = take i ys ->
  NUL ∉ take i xs ->
  xs !! i = Some NUL ->
  ys !! i = Some NUL ->
  StartsWith m a substr n = Some true.
Proof.
  unfold size, data. intros Hn Hsz Hxs Hys Hi Htake Hnul Hx Hy.
  unfold StartsWith. rewrite (u64_int_nonneg n Hn).
  rewrite bool_decide_eq_true_2 by done. rewrite Hxs, Hys. simpl.
  rewrite (strncmp_common_NUL xs ys (Z.to_nat n) i) by done.
  reflexivity.
Qed.

Lemma StartsWith_stops_at_NUL_witness :
  StartsWith Concrete.m1 view1 (Ptr 2 0) 3 = Some true
  /\ eq_op Concrete.m1 view1 view2 = Some false.
Proof.
  split; [|reflexivity].
  assert (0 <= 3 < 2 ^ 31) as Hn by lia.
  assert (3 <= size view1) as Hsz by (unfold size; simpl; lia).
  assert (1 < Z.to_nat 3)%nat as Hi by lia.
  assert (NUL ∉ take 1 [Concrete.b_a; NUL; Concrete.b_b]) as Hnul.
  { intros Hin. apply list_elem_of_singleton in Hin. discriminate Hin. }
  exact (StartsWith_stops_at_NUL Concrete.m1 view1 (Ptr 2 0) 3
           [Concrete.b_a; NUL; Concrete.b_b] [Concrete.b_a; NUL; Concrete.b_c]
           1 Hn Hsz eq_refl eq_refl Hi eq_refl Hnul eq_refl eq_refl).
Defined.

(** ** operator== and ToString *)

Lemma eq_op_readable (m : mem) (a b : ByteArray) (xs ys : list byte) :
  bytes m a = Some xs ->
  bytes m b = Some ys ->
  eq_op m a b = Some (bool_decide (size_ a = size_ b /\ xs = ys)).
Proof.
  unfold bytes, eq_op, size_const, data_const. intros Ha Hb.
  case_bool_decide as Hsz.
  - pose proof (load_length _ _ _ _ Ha) as Hla.
    pose proof (load_length _ _ _ _ Hb) as Hlb.
    rewrite <- Hsz in Hb. rewrite Ha, Hb. simpl. f_equal.
    apply bool_decide_ext. rewrite memcmp_0_iff by congruence. tauto.
  - f_equal. symmetry. apply bool_decide_eq_false_2. tauto.
Qed.



(** X5.  Two readable views are [==] exactly when their [ToString()] copies
    are the same string. *)
Theorem eq_op_iff_ToString (m : mem) (a b : ByteArray)
    (xs ys : list byte) :
  bytes m a = Some xs -> bytes m b = Some ys ->
  eq_op m a b = Some true <-> ToString m a = ToString m b.
Proof.
  intros Ha Hb. rewrite (eq_op_readable m a b xs ys) by done.
  unfold ToString. unfold bytes in Ha, Hb. rewrite Ha, Hb. split.
  - intros [= Hd]. apply bool_decide_eq_true_1 in Hd as [_ ->]. done.
  - intros [= ->]. f_equal. apply bool_decide_eq_true_2. split; [|done].
    pose proof (load_length _ _ _ _ Ha) as Hla.
    pose proof (load_length _ _ _ _ Hb) as Hlb.
    pose proof (load_nonneg _ _ _ _ Ha). pose proof (load_nonneg _ _ _ _ Hb).
    lia.
Qed.

Lemma eq_op_iff_ToString_witness :
  eq_op Concrete.m1 view1 view2 = Some true
  <-> ToString Concrete.m1 view1 = ToString Concrete.m1 view2.
Proof.
  exact (eq_op_iff_ToString Concrete.m1 view1 view2
           [Concrete.b_a; NUL; Concrete.b_b] [Concrete.b_a; NUL; Concrete.b_c]
           eq_refl eq_refl).
Defined.

(** ** AllocatedByteArray *)

Lemma strncpy_before_NUL (src : list byte) (n : nat) :
  (n <= length src)%nat ->
  strncpy src n
  = Some (before_NUL (take n src)
          ++ replicate (n - length (before_NUL (take n src))) NUL).
Proof.
  revert src. induction n as [|n IH]; intros [|c src] Hlen; simpl in *;
    try done; try lia.
  case_bool_decide as Hc; [reflexivity|].
  rewrite IH by lia. reflexivity.
Qed.

Lemma strncpy_length (src out : list byte) (n : nat) :
  strncpy src n = Some out -> length out = n.
Proof.
  revert src out. induction n as [|n IH]; intros [|c src] out; simpl;
    try done; try (by intros [= <-]).
  case_bool_decide.
  - intros [= <-]. simpl. by rewrite length_replicate.
  - destruct (strncpy src n) as [out'|] eqn:Hout; [|done].
    intros [= <-]. simpl. by rewrite (IH _ _ Hout).
Qed.

(** The constructor, unfolded: the source read, the bytes written and the
    new block. *)
Lemma AllocatedByteArray_ctor_Some (sc0 crc0 : Z) (data_in : ptr)
    (size_in : Z) (m m' : mem) (a : ByteArray) :
  AllocatedByteArray_ctor sc0 crc0 data_in size_in m = Some (a, m') ->
  exists src out,
    strncpy src (Z.to_nat (u64 size_in)) = Some out
    /\ a = set_data (Ptr (fresh (dom m)) 0)
             (set_size (u64 size_in) (ByteArray_ctor sc0 crc0))
    /\ m' = <[fresh (dom m) := out]> m
    /\ m !! fresh (dom m) = None.
Proof.
  unfold AllocatedByteArray_ctor, alloc.
  match goal with
  | |- context [mbind _ ?e] => destruct e as [src|]; [|done]
  end.
  simpl. destruct (strncpy src _) as [out|] eqn:Hout; [|done]. simpl.
  intros [= <- <-]. exists src, out. repeat split; [done|].
  apply not_elem_of_dom, is_fresh.
Qed.

Lemma load_insert_fresh (m : mem) (b : nat) (bs zs : list byte) (p : ptr)
    (k : Z) :
  m !! b = None -> load m p k = Some zs -> load (<[b := bs]> m) p k = Some zs.
Proof.
  intros Hb. unfold load. destruct p as [|b0 o]; [done|].
  destruct (m !! b0) as [bs0|] eqn:Hb0; [|done].
  rewrite lookup_insert_ne by congruence. by rewrite Hb0.
Qed.

(** X6.  The buffer of [AllocatedByteArray(data_in, n)] holds [n] bytes:
    the bytes of the span before its first NUL, then NUL up to [n]. *)
Theorem AllocatedByteArray_ctor_content (sc0 crc0 : Z) (m : mem)
    (data_in : ptr) (n : Z) (xs : list byte) :
  0 <= n < 2 ^ 64 ->
  load m data_in n = Some xs ->
  exists a m',
    AllocatedByteArray_ctor sc0 crc0 data_in n m = Some (a, m')
    /\ size a = n
    /\ bytes m' a
       = Some (before_NUL xs
               ++ replicate (Z.to_nat n - length (before_NUL xs)) NUL).
Proof.
  intros Hn Hload. unfold AllocatedByteArray_ctor.
  rewrite (u64_id n Hn).
  assert (exists src, match data_in with
            | nullptr => if bool_decide (n = 0) then Some [] else None
            | Ptr b o =>
                bs ← m !! b;
                if bool_decide (0 <= o <= Z.of_nat (length bs))
                then Some (drop (Z.to_nat o) bs) else None
            end = Some src
            /\ xs = take (Z.to_nat n) src
            /\ (Z.to_nat n <= length src)%nat) as (src & -> & Hxs & Hlen).
  { unfold load in Hload. destruct data_in as [|b o].
    - case_bool_decide; [|done]. injection Hload as <-. subst n.
      exists []. done.
    - destruct (m !! b) as [bs|]; [|done]. simpl.
      case_bool_decide; [|done]. injection Hload as <-.
      exists (drop (Z.to_nat o) bs).
      rewrite bool_decide_eq_true_2 by lia.
      split; [done|]. split; [done|]. rewrite length_drop. lia. }
  simpl. subst xs.
  pose proof (strncpy_before_NUL _ _ Hlen) as Hcpy.
  pose proof (strncpy_length _ _ _ Hcpy) as Hout.
  rewrite Hcpy. simpl.
  eexists _, _. split; [reflexivity|]. split; [reflexivity|].
  unfold bytes, load. simpl. rewrite lookup_insert_eq.
  rewrite bool_decide_eq_true_2 by lia.
  f_equal. rewrite drop_0. apply take_ge. lia.
Qed.

Lemma AllocatedByteArray_ctor_content_witness :
  exists a m',
    AllocatedByteArray_ctor 0 0 (Ptr 7 3) 4 Concrete.m0 = Some (a, m')
    /\ size a = 4
    /\ bytes m' a = Some [Concrete.b_b; Concrete.b_a; NUL; NUL].
Proof.
  assert (0 <= 4 < 2 ^ 64) as Hn by lia.
  exact (AllocatedByteArray_ctor_content 0 0 Concrete.m0 (Ptr 7 3) 4
           [Concrete.b_b; Concrete.b_a; NUL; Concrete.b_b] Hn eq_refl).
Defined.

(** X7.  The constructor writes to a block that was not live and to nothing
    else: every span readable before is readable after, with the same
    bytes. *)
Theorem AllocatedByteArray_ctor_frame (sc0 crc0 : Z) (data_in : ptr)
    (size_in : Z) (m m' : mem) (a : ByteArray) :
  AllocatedByteArray_ctor sc0 crc0 data_in size_in m = Some (a, m') ->
  exists b, data a = Ptr b 0
    /\ m !! b = None
    /\ is_Some (m' !! b)
    /\ forall p k zs, load m p k = Some zs -> load m' p k = Some zs.
Proof.
  intros Hctor.
  destruct (AllocatedByteArray_ctor_Some _ _ _ _ _ _ _ Hctor)
    as (src & out & _ & -> & -> & Hfresh).
  exists (fresh (dom m)). split; [reflexivity|]. split; [done|]. split.
  - rewrite lookup_insert_eq. by eexists.
  - intros p k zs. by apply load_insert_fresh.
Qed.

Lemma AllocatedByteArray_ctor_frame_witness :
  exists a m',
    AllocatedByteArray_ctor 0 0 (Ptr 7 4) 3 Concrete.m0 = Some (a, m')
    /\ load m' (Ptr 7 4) 3 = Some [Concrete.b_a; NUL; Concrete.b_b].
Proof.
  destruct (AllocatedByteArray_ctor 0 0 (Ptr 7 4) 3 Concrete.m0)
    as [[a m']|] eqn:Hctor; [|discriminate Hctor].
  exists a, m'. split; [reflexivity|].
  destruct (AllocatedByteArray_ctor_frame 0 0 (Ptr 7 4) 3 Concrete.m0 m' a
              Hctor) as (b & _ & _ & _ & Hframe).
  apply Hframe. reflexivity.
Defined.



(** X9.  A span without NUL and its [AllocatedByteArray] copy are [==], in
    both orders, the original seen through a [SimpleByteArray]. *)
Theorem AllocatedByteArray_copy_eq (sc0 crc0 sc1 crc1 : Z) (m : mem)
    (data_in : ptr) (n : Z) (xs : list byte) :
  0 <= n < 2 ^ 64 ->
  load m data_in n = Some xs ->
  NUL ∉ xs ->
  exists a m',
    AllocatedByteArray_ctor sc0 crc0 data_in n m = Some (a, m')
    /\ eq_op m' a (SimpleByteArray_ctor sc1 crc1 data_in n) = Some true
    /\ eq_op m' (SimpleByteArray_ctor sc1 crc1 data_in n) a = Some true.
Proof.
  intros Hn Hload Hnul.
  destruct (AllocatedByteArray_ctor_no_NUL sc0 crc0 m data_in n xs Hn Hload
              Hnul) as (a & m' & Hctor & Hsize & Hbytes).
  exists a, m'. split; [done|].
  destruct (AllocatedByteArray_ctor_Some _ _ _ _ _ _ _ Hctor)
    as (src & out & _ & Ha & Hm' & Hfresh).
  assert (bytes m' (SimpleByteArray_ctor sc1 crc1 data_in n) = Some xs)
    as Hsimple.
  { unfold bytes, SimpleByteArray_ctor. simpl. rewrite (u64_id n Hn).
    rewrite Hm'. by apply load_insert_fresh. }
  assert (size_ a = size_ (SimpleByteArray_ctor sc1 crc1 data_in n)) as Hsz.
  { unfold size in Hsize. rewrite Hsize. simpl. by rewrite (u64_id n Hn). }
  rewrite (eq_op_readable m' a _ xs xs), (eq_op_readable m' _ a xs xs)
    by done.
  split; f_equal; apply bool_decide_eq_true_2; done.
Qed.

Lemma AllocatedByteArray_copy_eq_witness :
  exists a m',
    AllocatedByteArray_ctor 0 0 (Ptr 7 0) 5 Concrete.m0 = Some (a, m')
    /\ eq_op m' a (SimpleByteArray_ctor 0 0 (Ptr 7 0) 5) = Some true.
Proof.
  assert (0 <= 5 < 2 ^ 64) as Hn by lia.
  assert (NUL ∉ [Byte.x02; Concrete.b_a; Byte.x03; Concrete.b_b;
                 Concrete.b_a]) as Hnul.
  { intros Hin. repeat (apply elem_of_cons in Hin as [Hin|Hin];
                        [discriminate Hin|]).
    by apply elem_of_nil in Hin. }
  destruct (AllocatedByteArray_copy_eq 0 0 0 0 Concrete.m0 (Ptr 7 0) 5
              _ Hn eq_refl Hnul) as (a & m' & Hctor & Heq & _).
  exists a, m'. split; [exact Hctor | exact Heq].
Defined.

(** ** Mmap and the constructor of SharedMmappedByteArray *)



(** ** SetOffset and AddSize *)

(** X11.  The offset given to [SetOffset] counts from the start of the
    mapping or of the heap buffer, not from the current view: a second
    [SetOffset] undoes the first. *)
Theorem SetOffset_absolute {C H : Type} (k1 n1 k2 n2 : Z) :
  (forall v v1 : SharedMmappedByteArray C H,
     SharedMmapped_SetOffset k1 n1 v = Some v1 ->
     SharedMmapped_SetOffset k2 n2 v1 = SharedMmapped_SetOffset k2 n2 v)
  /\ (forall v : SharedAllocatedByteArray,
     SharedAllocated_SetOffset k2 n2 (SharedAllocated_SetOffset k1 n1 v)
     = SharedAllocated_SetOffset k2 n2 v).
Proof.
  split.
  - intros v v1. unfold SharedMmapped_SetOffset.
    destruct (mmap_ v) as [mm|] eqn:Hmm; [|done]. simpl.
    intros [= <-]. simpl. reflexivity.
  - intros v. reflexivity.
Qed.

Lemma SetOffset_absolute_witness :
  SharedMmapped_SetOffset 4 3
    (mkSharedMmapped (mkByteArray (Ptr 7 0) 5 0 0 false) 0 0
       (Some (mkMmap 3 7 (Ptr 7 0) "db/00000001")) 0)
  = SharedMmapped_SetOffset 4 3 Concrete.plain_view.
Proof.
  exact (proj1 (@SetOffset_absolute Z Z 0 5 4 3) Concrete.plain_view _
           eq_refl).
Defined.


(** X12.  [AddSize(add)] with [add >= 0] lengthens the view at its end:
    the data pointer stays, and the bytes are the old bytes followed by the
    next [add] bytes of the buffer. *)
Theorem AddSize_extends {C H : Type} (m : mem) (a : ByteArray) (add : Z)
    (xs ys : list byte) :
  bytes m a = Some xs ->
  load m (ptr_add (data a) (size a)) add = Some ys ->
  size a + add < 2 ^ 64 ->
  (forall v : SharedMmappedByteArray C H, sm_base v = a ->
     data (sm_base (SharedMmapped_AddSize add v)) = data a
     /\ size (sm_base (SharedMmapped_AddSize add v)) = size a + add
     /\ bytes m (sm_base (SharedMmapped_AddSize add v)) = Some (xs ++ ys))
  /\ (forall v : SharedAllocatedByteArray, sa_base v = a ->
     data (sa_base (SharedAllocated_AddSize add v)) = data a
     /\ size (sa_base (SharedAllocated_AddSize add v)) = size a + add
     /\ bytes m (sa_base (SharedAllocated_AddSize add v)) = Some (xs ++ ys)).
Proof.
  unfold bytes, size, data. intros Ha Hnext Hlt.
  pose proof (load_nonneg _ _ _ _ Ha) as Hsz.
  pose proof (load_nonneg _ _ _ _ Hnext) as Hadd.
  pose proof (load_app _ _ _ _ _ _ Ha Hnext) as Happ.
  assert (u64 (size_ a + add) = size_ a + add) as Hu by (apply u64_id; lia).
  split; intros v <-; simpl; rewrite Hu; done.
Qed.

Lemma AddSize_extends_witness :
  bytes Concrete.m0
    (sa_base (SharedAllocated_AddSize 2
                (SharedAllocatedByteArray_ctor 0 0 0 (Ptr 7 0) 2)))
  = Some ([Byte.x02; Concrete.b_a] ++ [Byte.x03; Concrete.b_b]).
Proof.
  assert (size (mkByteArray (Ptr 7 0) (u64 2) (u64 0) (u32 0) false) + 2
          < 2 ^ 64) as Hlt by (vm_compute; reflexivity).
  exact (proj2 (proj2 (proj2 (@AddSize_extends Z Z Concrete.m0
           (mkByteArray (Ptr 7 0) (u64 2) (u64 0) (u32 0) false) 2
           [Byte.x02; Concrete.b_a] [Byte.x03; Concrete.b_b]
           eq_refl eq_refl Hlt)
          (SharedAllocatedByteArray_ctor 0 0 0 (Ptr 7 0) 2) eq_refl))).
Defined.



(** X14.  [SharedAllocatedByteArray(n)] builds a view of a block that was
    not live: the view denotes the whole new array, the shared pointer and
    the data pointer are the same, and every span readable before is
    readable after, with the same bytes. *)
Theorem SharedAllocatedByteArray_ctor_size_fresh (sc0 crc0 off0 : Z)
    (size_in : Z) (junk : list byte) (m m' : mem)
    (v : SharedAllocatedByteArray) :
  SharedAllocatedByteArray_ctor_size sc0 crc0 off0 size_in junk m
  = Some (v, m') ->
  bytes m' (sa_base v) = Some junk
  /\ size (sa_base v) = Z.of_nat (length junk)
  /\ data_allocated_ v = data (sa_base v)
  /\ load m (data (sa_base v)) 0 = None
  /\ forall p k zs, load m p k = Some zs -> load m' p k = Some zs.
Proof.
  unfold SharedAllocatedByteArray_ctor_size, alloc.
  case_bool_decide as Hlen; [|done]. intros [= <- <-].
  assert (m !! fresh (dom m) = None) as Hfresh
    by apply not_elem_of_dom, is_fresh.
  unfold bytes, size, data, load. simpl. rewrite lookup_insert_eq, Hfresh.
  rewrite <- Hlen. rewrite bool_decide_eq_true_2 by lia.
  repeat split; try done.
  - f_equal. rewrite drop_0. apply take_ge. lia.
  - intros p k zs. by apply load_insert_fresh.
Qed.

Lemma SharedAllocatedByteArray_ctor_size_fresh_witness :
  exists v m',
    SharedAllocatedByteArray_ctor_size 0 0 0 2 [Concrete.b_a; Concrete.b_b]
      Concrete.m0 = Some (v, m')
    /\ bytes m' (sa_base v) = Some [Concrete.b_a; Concrete.b_b].
Proof.
  destruct (SharedAllocatedByteArray_ctor_size 0 0 0 2
              [Concrete.b_a; Concrete.b_b] Concrete.m0)
    as [[v m']|] eqn:Hctor; [|discriminate Hctor].
  exists v, m'. split; [reflexivity|].
  exact (proj1 (SharedAllocatedByteArray_ctor_size_fresh 0 0 0 2
                  [Concrete.b_a; Concrete.b_b] Concrete.m0 m' v Hctor)).
Defined.

(** ** data_chunk *)

Section DataChunkMore.
Context {C H : Type} `{!Compressor C} `{!CRC32 H}.
Implicit Types (v : SharedMmappedByteArray C H) (m : mem).

(** X15.  [data_chunk] never changes what the view is a view of: the
    pointer, the size, the compressed size, the stored checksum, the mapping
    and the offset are after the call what they were before, and the hasher
    moves only in a call that answers [OK]. *)
Theorem data_chunk_preserves_view v m (res : chunk_result) :
  data_chunk v m = Some res ->
  sm_base (cr_this res) = sm_base v
  /\ mmap_ (cr_this res) = mmap_ v
  /\ sm_offset_ (cr_this res) = sm_offset_ v
  /\ (Status.IsOK (cr_status res) = false ->
      crc32_ (cr_this res) = crc32_ v).
Proof.
  unfold data_chunk. case_bool_decide.
  - intros [= <-]. done.
  - destruct (_ && _).
    + intros [= <-]. done.
    + destruct (negb _).
      * intros [= <-]. done.
      * destruct (load _ _ _) as [frame|]; [|done]. simpl.
        intros [= <-]. simpl. repeat split; done.
Qed.

(** X16.  A call on a compressed value answers [Done] only when the codec
    answered [Done] and the checksum computed so far is the stored one, and
    answers [OK] only when the codec answered [OK]. *)
Theorem data_chunk_Done_checked v m (res : chunk_result) :
  size_compressed_ (sm_base v) <> 0 ->
  data_chunk v m = Some res ->
  let r := Uncompress (compressor_ v) m (data_ (sm_base v))
             (size_compressed_ (sm_base v)) nullptr 0 in
  (Status.IsDone (cr_status res) = true ->
   Status.IsDone (ur_status r) = true
   /\ crc_get (crc32_ v) = crc32_value_ (sm_base v))
  /\ (Status.IsOK (cr_status res) = true ->
      Status.IsOK (ur_status r) = true).
Proof.
  intros Hsc Hcall r. unfold data_chunk in Hcall.
  rewrite bool_decide_eq_false_2 in Hcall by done. fold r in Hcall.
  destruct (Status.IsDone (ur_status r)) eqn:Hdone;
    destruct (bool_decide (crc_get (crc32_ v) = crc32_value_ (sm_base v)))
      eqn:Hcrc; simpl in Hcall.
  - apply bool_decide_eq_true_1 in Hcrc.
    destruct (Status.IsOK (ur_status r)) eqn:Hok; simpl in Hcall.
    + by rewrite (IsOK_not_IsDone _ Hok) in Hdone.
    + injection Hcall as <-. simpl. rewrite Hok. done.
  - injection Hcall as <-. simpl. done.
  - destruct (Status.IsOK (ur_status r)) eqn:Hok; simpl in Hcall.
    + destruct (load _ _ _); [|done]. injection Hcall as <-. simpl. done.
    + injection Hcall as <-. simpl. rewrite Hdone, Hok. done.
  - destruct (Status.IsOK (ur_status r)) eqn:Hok; simpl in Hcall.
    + destruct (load _ _ _); [|done]. injection Hcall as <-. simpl. done.
    + injection Hcall as <-. simpl. rewrite Hdone, Hok. done.
Qed.

End DataChunkMore.

Lemma data_chunk_preserves_view_witness :
  exists res,
    data_chunk (Concrete.two_frames 0) Concrete.m0 = Some res
    /\ sm_base (cr_this res) = sm_base (Concrete.two_frames 0).
Proof.
  destruct (data_chunk (Concrete.two_frames 0) Concrete.m0)
    as [res|] eqn:Hres; [|discriminate Hres].
  exists res. split; [reflexivity|].
  exact (proj1 (data_chunk_preserves_view (Concrete.two_frames 0)
                  Concrete.m0 res Hres)).
Defined.

Lemma data_chunk_Done_checked_witness :
  exists res,
    data_chunk (Concrete.two_frames_decoded 152990) Concrete.m0 = Some res
    /\ (Status.IsDone (cr_status res) = true ->
        crc_get (crc32_ (Concrete.two_frames_decoded 152990)) = 152990).
Proof.
  destruct (data_chunk (Concrete.two_frames_decoded 152990) Concrete.m0)
    as [res|] eqn:Hres; [|discriminate Hres].
  exists res. split; [reflexivity|]. intros Hdone.
  assert (size_compressed_ (sm_base (Concrete.two_frames_decoded 152990))
          <> 0) as Hsc by (simpl; lia).
  exact (proj2 (proj1 (data_chunk_Done_checked
                         (Concrete.two_frames_decoded 152990) Concrete.m0
                         res Hsc Hres) Hdone)).
Defined.

(** ** Snapshot *)

Section SnapshotMore.
Context {DatabaseOptions ReadOptions WriteOptions E : Type}.
Context `{!StorageEngine E}.
Implicit Types (s : Snapshot DatabaseOptions) (w : World E).

Lemma Get_live s w (read_options : ReadOptions) (key : ByteArray)
    (r : nat) (e : E) :
  se_readonly_ s = Some r ->
  engines w !! r = Some e ->
  Get read_options key (s, w)
  = Some ((se_Get e key).1,
          (s, mkWorld (<[r := (se_Get e key).2]> (engines w))
                (fileid_sets w) (trace w ++ [EvGet r key]))).
Proof.
  intros Hr He.
  unfold Get, this, call_Get, mbind, M_bind, mret, M_ret. simpl.
  rewrite Hr. simpl. rewrite He. simpl.
  destruct (se_Get e key) as [[status value] e']. simpl.
  destruct (Status.IsNotFound status); [reflexivity|].
  destruct (Status.IsOK status); reflexivity.
Qed.

(** X17.  [Get] does not look at [is_closed_]: after [Close()] it calls
    the read-only engine through the pointer [Close()] deleted, which is
    undefined. *)
Theorem Get_after_Close s w (read_options : ReadOptions) (key : ByteArray)
    (f l r : nat) (fs : list Z) (el : E) :
  is_closed_ s = false ->
  fileids_iterator_ s = Some f -> fileid_sets w !! f = Some fs ->
  se_live_ s = Some l -> engines w !! l = Some el ->
  se_readonly_ s = Some r -> is_Some (engines w !! r) ->
  exists st',
    Close (s, w) = Some (tt, st')
    /\ is_closed_ st'.1 = true
    /\ Get read_options key st' = None.
Proof.
  intros Hc Hf Hfs Hl Hel Hr Her.
  eexists. split; [by eapply Close_open|]. split; [reflexivity|].
  unfold Get, this, call_Get, mbind, M_bind. simpl. rewrite Hr. simpl.
  by rewrite lookup_delete_eq.
Qed.

(** X18.  [NewIterator] does not look at [is_closed_] either: after
    [Close()] it hands out an iterator over the deleted engine and the
    deleted file-id set. *)
Theorem NewIterator_after_Close s w (read_options : ReadOptions)
    (f l r : nat) (fs : list Z) (el : E) :
  is_closed_ s = false ->
  fileids_iterator_ s = Some f -> fileid_sets w !! f = Some fs ->
  se_live_ s = Some l -> engines w !! l = Some el ->
  se_readonly_ s = Some r -> is_Some (engines w !! r) ->
  exists st',
    Close (s, w) = Some (tt, st')
    /\ NewIterator read_options st'
       = Some (mkIterator read_options (Some r) (Some f), st')
    /\ engines st'.2 !! r = None
    /\ fileid_sets st'.2 !! f = None.
Proof.
  intros Hc Hf Hfs Hl Hel Hr Her.
  eexists. split; [by eapply Close_open|].
  unfold NewIterator, this, mbind, M_bind, mret, M_ret. simpl.
  rewrite Hr, Hf, !lookup_delete_eq. done.
Qed.

(** X19.  Nothing is kept between two calls of [Get]: the second call goes
    to the read-only engine again, in the state the first call left it, and
    returns what the engine answers then. *)
Theorem Get_twice s w (read_options : ReadOptions) (key1 key2 : ByteArray)
    (r : nat) (e : E) :
  se_readonly_ s = Some r ->
  engines w !! r = Some e ->
  let e1 := (se_Get e key1).2 in
  (Get read_options key1;; Get read_options key2) (s, w)
  = Some ((se_Get e1 key2).1,
          (s, mkWorld (<[r := (se_Get e1 key2).2]> (engines w))
                (fileid_sets w)
                (trace w ++ [EvGet r key1; EvGet r key2]))).
Proof.
  intros Hr He e1.
  change ((Get read_options key1;; Get read_options key2) (s, w))
    with (match Get read_options key1 (s, w) with
          | Some (_, st') => Get read_options key2 st'
          | None => None
          end).
  rewrite (Get_live s w read_options key1 r e Hr He).
  rewrite (Get_live s _ read_options key2 r e1 Hr)
    by (simpl; apply lookup_insert_eq).
  simpl. rewrite insert_insert_eq, <- (assoc_L (++)). reflexivity.
Qed.

(** X20.  [Close()] touches the three objects of the snapshot and no
    other.  The live engine stays, with the snapshot released, when it is
    not the engine the snapshot reads; when the snapshot was given one
    engine for both, [Close()] deletes it. *)
Theorem Close_frame s w (f l r : nat) (fs : list Z) (el : E) :
  is_closed_ s = false ->
  fileids_iterator_ s = Some f -> fileid_sets w !! f = Some fs ->
  se_live_ s = Some l -> engines w !! l = Some el ->
  se_readonly_ s = Some r -> is_Some (engines w !! r) ->
  exists st',
    Close (s, w) = Some (tt, st')
    /\ (forall a, a <> l -> a <> r -> engines st'.2 !! a = engines w !! a)
    /\ (forall a, a <> f -> fileid_sets st'.2 !! a = fileid_sets w !! a)
    /\ (l <> r ->
        engines st'.2 !! l = Some (se_ReleaseSnapshot el (snapshot_id_ s)))
    /\ (l = r -> engines st'.2 !! l = None).
Proof.
  intros Hc Hf Hfs Hl Hel Hr Her.
  eexists. split; [by eapply Close_open|]. simpl. repeat split.
  - intros a Hal Har.
    by rewrite lookup_delete_ne, lookup_insert_ne by done.
  - intros a Haf. by rewrite lookup_delete_ne.
  - intros Hlr. by rewrite lookup_delete_ne, lookup_insert_eq by done.
  - intros ->. by rewrite lookup_delete_eq.
Qed.

End SnapshotMore.

Lemma Get_after_Close_witness :
  exists st',
    Close (Concrete.snapshot0, Concrete.world0) = Some (tt, st')
    /\ Get (ReadOptions := unit) tt Concrete.key0 st' = None.
Proof.
  destruct (Get_after_Close Concrete.snapshot0 Concrete.world0 tt
              Concrete.key0 5%nat 1%nat 2%nat [1; 2; 3] Concrete.engine0
              eq_refl eq_refl eq_refl eq_refl eq_refl eq_refl
              (ex_intro _ Concrete.engine0 eq_refl))
    as (st' & HClose & _ & HGet).
  exists st'. split; [exact HClose | exact HGet].
Defined.

Lemma NewIterator_after_Close_witness :
  exists st',
    Close (Concrete.snapshot0, Concrete.world0) = Some (tt, st')
    /\ NewIterator (ReadOptions := unit) tt st'
       = Some (mkIterator tt (Some 2%nat) (Some 5%nat), st')
    /\ engines st'.2 !! 2%nat = None.
Proof.
  destruct (NewIterator_after_Close Concrete.snapshot0 Concrete.world0 tt
              5%nat 1%nat 2%nat [1; 2; 3] Concrete.engine0
              eq_refl eq_refl eq_refl eq_refl eq_refl eq_refl
              (ex_intro _ Concrete.engine0 eq_refl))
    as (st' & HClose & HIt & Hr & _).
  exists st'. split; [exact HClose|]. split; [exact HIt | exact Hr].
Defined.

Lemma Get_twice_witness :
  exists st',
    (Get (ReadOptions := unit) tt Concrete.key0;;
     Get (ReadOptions := unit) tt (mkByteArray (Ptr 2 0) 3 0 0 false))
      (Concrete.snapshot0, Concrete.world0)
    = Some ((Status.NotFound "Unable to find the entry", None), st')
    /\ trace st'.2
       = [EvGet 2 Concrete.key0;
          EvGet 2 (mkByteArray (Ptr 2 0) 3 0 0 false)].
Proof.
  eexists. split.
  - exact (Get_twice (ReadOptions := unit) Concrete.snapshot0
             Concrete.world0 tt Concrete.key0
             (mkByteArray (Ptr 2 0) 3 0 0 false) 2%nat Concrete.engine0
             eq_refl eq_refl).
  - reflexivity.
Defined.

Lemma Close_frame_witness :
  exists st',
    Close (Concrete.snapshot0, Concrete.world0) = Some (tt, st')
    /\ engines st'.2 !! 1%nat
       = Some (se_ReleaseSnapshot Concrete.engine0 42).
Proof.
  destruct (Close_frame Concrete.snapshot0 Concrete.world0
              5%nat 1%nat 2%nat [1; 2; 3] Concrete.engine0
              eq_refl eq_refl eq_refl eq_refl eq_refl eq_refl
              (ex_intro _ Concrete.engine0 eq_refl))
    as (st' & HClose & _ & _ & Hlive & _).
  exists st'. split; [exact HClose|]. apply Hlive. discriminate.
Defined.

(** ** The compression fields *)

(** X21.  [data_chunk] decides by [size_compressed_] alone: the flag set
    by [SetCompression] changes neither the status, nor the chunk handed
    out, nor the store, the compressor or the hasher after the call. *)
Theorem data_chunk_ignores_is_compressed {C H : Type} `{!Compressor C}
    `{!CRC32 H} (v : SharedMmappedByteArray C H) (m : mem) (c : bool) :
  let observe := fun r : chunk_result =>
    (cr_status r, cr_data r, cr_size r, cr_mem r,
     compressor_ (cr_this r), crc32_ (cr_this r)) in
  observe <$> data_chunk (sm_with_base (SetCompression c) v) m
  = observe <$> data_chunk v m.
Proof.
  intros observe. unfold data_chunk, sm_with_base, SetCompression. simpl.
  case_bool_decide; [reflexivity|].
  destruct (_ && _); [reflexivity|].
  destruct (negb _); [reflexivity|].
  destruct (load _ _ _); reflexivity.
Qed.

(** X22.  [SetCRC32] takes a [uint64_t] and stores a [uint32_t]: the
    stored checksum is the argument modulo [2^32], so that two arguments
    that differ by a multiple of [2^32] give the same object, and
    [SetSizeCompressed] and [SetCompression] leave it alone. *)
Theorem SetCRC32_truncates (a : ByteArray) (c k s : Z) (b : bool) :
  0 <= crc32_value_ (SetCRC32 c a) < 2 ^ 32
  /\ SetCRC32 (c + k * 2 ^ 32) a = SetCRC32 c a
  /\ (0 <= c < 2 ^ 32 -> crc32_value_ (SetCRC32 c a) = c)
  /\ crc32_value_ (SetCompression b (SetSizeCompressed s (SetCRC32 c a)))
     = crc32_value_ (SetCRC32 c a).
Proof.
  unfold SetCRC32, u32. simpl. split; [apply Z.mod_pos_bound; lia|].
  split; [by rewrite Z_mod_plus_full|].
  split; [apply Z.mod_small|reflexivity].
Qed.

Lemma SetCRC32_truncates_witness :
  crc32_value_ (SetCRC32 152990 view1) = 152990
  /\ SetCRC32 (152990 + 1 * 2 ^ 32) view1 = SetCRC32 152990 view1.
Proof.
  pose proof (SetCRC32_truncates view1 152990 1 0 false)
    as (_ & Hper & Hsmall & _).
  split; [apply Hsmall; lia | exact Hper].
Defined.
